(** * TechPulse client (frontend/src/App.js): request shapes, page state and rendering

    The React client is embedded shallowly.  Values that travel over the wire
    or sit in component state are JavaScript values ([jsval]); object literals
    and spreads are finite maps from property names to values; a component is
    a state record, an event type and a step function; an axios call is the
    request value it is given.  The ingestion and export core, which the
    client only calls, is modelled from the written design further down. *)

From Stdlib Require Import ZArith String Ascii List Lia DecimalString DecimalPos DecimalZ.
From stdpp Require Import gmap strings list fin_maps sorting.

Open Scope Z_scope.
Open Scope string_scope.

(** ** JavaScript values *)

Set Warnings "-register-all,-clear-no-such-hyp".

(** Numbers are the integer-valued ones: every number of this interface
    (counters, ids, sizes, offsets, the 0/1 flag) is an integer. *)
Inductive jsval : Type :=
| JUndefined
| JNull
| JBool (b : bool)
| JNum (n : Z)
| JStr (s : string)
| JArr (l : list jsval)
| JObj (m : gmap string jsval).

(** ToBoolean. *)
Definition truthy (v : jsval) : bool :=
  match v with
  | JUndefined | JNull => false
  | JBool b => b
  | JNum n => negb (Z.eqb n 0)
  | JStr s => negb (String.eqb s "")
  | JArr _ | JObj _ => true
  end.

(** [a || b] *)
Definition js_or (a b : jsval) : jsval := if truthy a then a else b.

(** [!a] *)
Definition js_not (a : jsval) : jsval := JBool (negb (truthy a)).

(** [o.k] on an object that is known to be one: a missing property reads
    as [undefined]. *)
Definition js_prop (m : gmap string jsval) (k : string) : jsval :=
  default JUndefined (m !! k).

(** Outcome of an expression that may throw. *)
Inductive result (A : Type) : Type :=
| Ok (a : A)
| TypeError (msg : string).
Arguments Ok {A} a.
Arguments TypeError {A} msg.

Definition js_bind {A B} (r : result A) (k : A -> result B) : result B :=
  match r with
  | Ok a => k a
  | TypeError m => TypeError m
  end.

(** [v.k] on an arbitrary value: reading a property of [undefined] or [null]
    throws; primitives other than strings have no own properties of
    interest here. *)
Definition js_get (v : jsval) (k : string) : result jsval :=
  match v with
  | JUndefined | JNull => TypeError "Cannot read properties of undefined or null"
  | JObj m => Ok (js_prop m k)
  | _ => Ok JUndefined
  end.

(** Decimal rendering of an integer, as [Number.prototype.toString] gives
    it for integers of magnitude below 10^21. *)
Definition Z_to_string (n : Z) : string := NilZero.string_of_int (Z.to_int n).

(** ToString, as a template literal applies it.  [Array.prototype.join]
    renders [undefined] and [null] elements as the empty string. *)
Fixpoint js_to_string (v : jsval) : string :=
  match v with
  | JUndefined => "undefined"
  | JNull => "null"
  | JBool true => "true"
  | JBool false => "false"
  | JNum n => Z_to_string n
  | JStr s => s
  | JArr l =>
      String.concat ","
        (List.map (fun x => match x with
                            | JUndefined | JNull => ""
                            | _ => js_to_string x
                            end) l)
  | JObj _ => "[object Object]"
  end.

(** [v === n] for a number literal [n]: strict equality never converts. *)
Definition js_strict_eq_num (v : jsval) (n : Z) : bool :=
  match v with
  | JNum m => Z.eqb m n
  | _ => false
  end.

(** ** Requests handed to axios

    Paths are relative to [API]; query parameters are kept as the list
    [URLSearchParams] holds, in order. *)

Inductive http_method : Type := GET | POST | PUT | DELETE.

Record request : Type := {
  req_method : http_method;
  req_path : string;
  req_params : list (string * string);
  req_body : option jsval
}.

(** Messages handed to [toast]. *)
Inductive toast : Type :=
| ToastSuccess (msg : string)
| ToastError (msg : string).

(** A [Select] only ever reports the [value] of one of its [SelectItem]s:
    a pick is the position of the item. *)
Definition select_pick (items : list string) (i : nat) : option string :=
  items !! i.

(** ** Articles component (App.js 236-425) *)

Module Articles.

Record state : Type := {
  articles : list (gmap string jsval);
  loading : bool;
  search : string;
  category : string;
  categories : list string;
  page : Z;
  total : Z
}.

Definition limit : Z := 20.

(** The [useState] initial values. *)
Definition init : state :=
  {| articles := []; loading := true; search := ""; category := "";
     categories := []; page := 0; total := 0 |}.

(** [response.data] of [GET /articles]. *)
Record response : Type := {
  r_articles : list (gmap string jsval);
  r_total : Z
}.

(** [if (v) params.append(k, v)] *)
Definition append_if (k v : string) (params : list (string * string))
  : list (string * string) :=
  if negb (String.eqb v "") then params ++ [(k, v)] else params.

(** The request [fetchArticles] issues in state [s]. *)
Definition fetchArticles_request (s : state) : request :=
  let params := [("limit", Z_to_string limit);
                 ("offset", Z_to_string (page s * limit))] in
  let params := append_if "search" (search s) params in
  let params := append_if "category" (category s) params in
  {| req_method := GET; req_path := "/articles";
     req_params := params; req_body := None |}.

Inductive event : Type :=
| FetchStart                          (* setLoading(true) *)
| FetchOk (r : response)              (* the awaited get resolved *)
| FetchFail                           (* the awaited get rejected *)
| CategoriesOk (cats : list string)
| ChangeSearch (v : string)           (* search input onChange *)
| SelectCategory (val : string)       (* category Select onValueChange *)
| ClickPrev
| ClickNext.

Definition step (ev : event) (s : state) : state :=
  match ev with
  | FetchStart =>
      {| articles := articles s; loading := true; search := search s;
         category := category s; categories := categories s;
         page := page s; total := total s |}
  | FetchOk r =>
      {| articles := r_articles r; loading := false; search := search s;
         category := category s; categories := categories s;
         page := page s; total := r_total r |}
  | FetchFail =>
      {| articles := articles s; loading := false; search := search s;
         category := category s; categories := categories s;
         page := page s; total := total s |}
  | CategoriesOk cats =>
      {| articles := articles s; loading := loading s; search := search s;
         category := category s; categories := cats;
         page := page s; total := total s |}
  | ChangeSearch v =>
      {| articles := articles s; loading := loading s; search := v;
         category := category s; categories := categories s;
         page := 0; total := total s |}
  | SelectCategory val =>
      {| articles := articles s; loading := loading s; search := search s;
         category := (if String.eqb val "all" then "" else val);
         categories := categories s; page := 0; total := total s |}
  | ClickPrev =>
      {| articles := articles s; loading := loading s; search := search s;
         category := category s; categories := categories s;
         page := Z.max 0 (page s - 1); total := total s |}
  | ClickNext =>
      {| articles := articles s; loading := loading s; search := search s;
         category := category s; categories := categories s;
         page := page s + 1; total := total s |}
  end.

(** State after a sequence of events, oldest first. *)
Definition run (evs : list event) (s : state) : state :=
  fold_left (fun s ev => step ev s) evs s.

(** What one article row shows (the fields the statements below read). *)
Record article_view : Type := {
  v_key : jsval;
  v_href : jsval;
  v_title : jsval;
  v_exported_badge : bool;
  v_description : jsval;
  v_source_name : jsval
}.

Definition render_article (article : gmap string jsval) : article_view :=
  {| v_key := js_prop article "id";
     v_href := js_prop article "url";
     v_title := js_prop article "title";
     v_exported_badge := js_strict_eq_num (js_prop article "exported") 1;
     v_description := js_prop article "description";
     v_source_name := js_or (js_prop article "source_name") (JStr "Unknown Source") |}.

(** [Math.ceil(total / limit) || 1]: the ceiling of the exact quotient,
    and 1 when that is zero. *)
Definition page_count (total : Z) : Z :=
  let c := - ((- total) / limit) in
  if Z.eqb c 0 then 1 else c.

Record pagination_view : Type := {
  prev_disabled : bool;
  page_shown : Z;
  pages_of : Z;
  next_disabled : bool
}.

Definition render_pagination (s : state) : pagination_view :=
  {| prev_disabled := Z.eqb (page s) 0;
     page_shown := page s + 1;
     pages_of := page_count (total s);
     next_disabled := Z.geb ((page s + 1) * limit) (total s) |}.

Inductive view : Type :=
| Spinner
| EmptyState
| Listing (rows : list article_view) (pg : pagination_view).

Definition render (s : state) : view :=
  if loading s then Spinner
  else if Nat.eqb (length (articles s)) 0 then EmptyState
  else Listing (List.map render_article (articles s)) (render_pagination s).

(** The article's [exported] flag is set: the value the reply carries
    under [exported] counts as true (on the 0/1 encoding of line 366, it
    is 1). *)
Definition exported_flag_set (article : gmap string jsval) : bool :=
  truthy (js_prop article "exported").

End Articles.

(** ** Sources component (App.js 428-666) *)

Module Sources.

(** The values of the three [SelectItem]s of the type [Select]. *)
Definition type_items : list string := ["rss"; "reddit"; "scraper"].

(** The object literal [{ name: "", type: "rss", url: "", enabled: true }]. *)
Definition blank_form : gmap string jsval :=
  <["name" := JStr ""]> (<["type" := JStr "rss"]> (<["url" := JStr ""]>
    (<["enabled" := JBool true]> ∅))).

Record state : Type := {
  sources : list (gmap string jsval);
  showModal : bool;
  editingSource : option (gmap string jsval);
  formData : gmap string jsval
}.

Definition init : state :=
  {| sources := []; showModal := false; editingSource := None;
     formData := blank_form |}.

Inductive event : Type :=
| SourcesOk (l : list (gmap string jsval))
| ClickAdd
| ClickEdit (source : gmap string jsval)
| ChangeName (v : string)
| SelectType (i : nat)
| ChangeUrl (v : string)
| SwitchEnabled (checked : bool)
| OpenChange (open : bool)            (* Dialog onOpenChange, Cancel *)
| SubmitOk                            (* handleSubmit, after the await *)
| SubmitFail.

(** [setFormData({ ...formData, k: v })] *)
Definition set_field (k : string) (v : jsval) (s : state) : state :=
  {| sources := sources s; showModal := showModal s;
     editingSource := editingSource s;
     formData := <[k := v]> (formData s) |}.

Definition step (ev : event) (s : state) : state :=
  match ev with
  | SourcesOk l =>
      {| sources := l; showModal := showModal s;
         editingSource := editingSource s; formData := formData s |}
  | ClickAdd =>
      {| sources := sources s; showModal := true;
         editingSource := None; formData := blank_form |}
  | ClickEdit source =>
      {| sources := sources s; showModal := true;
         editingSource := Some source;
         formData :=
           <["name" := js_prop source "name"]>
             (<["type" := js_prop source "type"]>
                (<["url" := js_prop source "url"]>
                   (<["enabled" := js_prop source "enabled"]> ∅))) |}
  | ChangeName v => set_field "name" (JStr v) s
  | SelectType i =>
      match select_pick type_items i with
      | Some val => set_field "type" (JStr val) s
      | None => s
      end
  | ChangeUrl v => set_field "url" (JStr v) s
  | SwitchEnabled checked => set_field "enabled" (JBool checked) s
  | OpenChange open =>
      {| sources := sources s; showModal := open;
         editingSource := editingSource s; formData := formData s |}
  | SubmitOk =>
      {| sources := sources s; showModal := false;
         editingSource := None; formData := blank_form |}
  | SubmitFail => s
  end.

Definition run (evs : list event) (s : state) : state :=
  fold_left (fun s ev => step ev s) evs s.

(** The request [handleSubmit] issues in state [s]. *)
Definition handleSubmit_request (s : state) : request :=
  match editingSource s with
  | Some src =>
      {| req_method := PUT;
         req_path := "/sources/" ++ js_to_string (js_prop src "id");
         req_params := []; req_body := Some (JObj (formData s)) |}
  | None =>
      {| req_method := POST; req_path := "/sources";
         req_params := []; req_body := Some (JObj (formData s)) |}
  end.

(** The request [handleToggle(source)] issues; the function is bound to
    no element of the component. *)
Definition handleToggle_request (source : gmap string jsval) : request :=
  {| req_method := PUT;
     req_path := "/sources/" ++ js_to_string (js_prop source "id");
     req_params := [];
     req_body :=
       Some (JObj (<["enabled" := js_not (js_prop source "enabled")]> ∅)) |}.

(** No property holds [undefined] (such a property is dropped when the
    body is serialized). *)
Definition all_defined (m : gmap string jsval) : Prop :=
  map_Forall (fun _ v => v ≠ JUndefined) m.

(** The shape [{name, type, url, enabled}]: exactly these properties, each
    with a value. *)
Definition full_source_shape (body : option jsval) : Prop :=
  ∃ m, body = Some (JObj m) ∧
       dom m = ({["name"; "type"; "url"; "enabled"]} : gset string) ∧
       all_defined m.

(** The [type] property is one of the three kinds. *)
Definition type_in_closed_set (body : option jsval) : Prop :=
  ∃ m t, body = Some (JObj m) ∧ m !! "type" = Some (JStr t) ∧ t ∈ type_items.

(** The sources an edit was opened on were listed with one of the three
    kinds and with a name, a url and an enabled value. *)
Definition edits_listed_kind (ev : event) : Prop :=
  match ev with
  | ClickEdit source =>
      (∃ t, source !! "type" = Some (JStr t) ∧ t ∈ type_items) ∧
      js_prop source "name" ≠ JUndefined ∧
      js_prop source "url" ≠ JUndefined ∧
      js_prop source "enabled" ≠ JUndefined
  | _ => True
  end.

(** What every form state satisfies: the four properties, each with a
    value, and a listed kind. *)
Definition form_ok (m : gmap string jsval) : Prop :=
  dom m = ({["name"; "type"; "url"; "enabled"]} : gset string) ∧
  all_defined m ∧
  ∃ t, m !! "type" = Some (JStr t) ∧ t ∈ type_items.

(** A listed source, as GET /sources returns it; used in closed statements. *)
Definition hn_source : gmap string jsval :=
  <["id" := JNum 1]> (<["name" := JStr "Hacker News"]> (<["type" := JStr "rss"]>
    (<["url" := JStr "https://news.ycombinator.com/rss"]>
       (<["enabled" := JBool true]> ∅)))).

End Sources.

(** ** Summaries component (App.js 669-818) *)

Module Summaries.

Record state : Type := {
  generating : bool;
  outputFormat : string;
  selectedCategory : string;
  categories : list string
}.

Definition init : state :=
  {| generating := false; outputFormat := "markdown";
     selectedCategory := ""; categories := [] |}.

(** Items of the category [Select]: "All Categories" carries the value
    ["all"], then one item per category. *)
Definition category_items (s : state) : list string :=
  "all" :: categories s.

Definition format_items : list string := ["markdown"; "json"].

Inductive event : Type :=
| CategoriesOk (cats : list string)
| SelectCategory (i : nat)            (* onValueChange={setSelectedCategory} *)
| SelectFormat (i : nat)              (* onValueChange={setOutputFormat} *)
| GenerateStart
| GenerateDone.

Definition step (ev : event) (s : state) : state :=
  match ev with
  | CategoriesOk cats =>
      {| generating := generating s; outputFormat := outputFormat s;
         selectedCategory := selectedCategory s; categories := cats |}
  | SelectCategory i =>
      match select_pick (category_items s) i with
      | Some val =>
          {| generating := generating s; outputFormat := outputFormat s;
             selectedCategory := val; categories := categories s |}
      | None => s
      end
  | SelectFormat i =>
      match select_pick format_items i with
      | Some val =>
          {| generating := generating s; outputFormat := val;
             selectedCategory := selectedCategory s;
             categories := categories s |}
      | None => s
      end
  | GenerateStart =>
      {| generating := true; outputFormat := outputFormat s;
         selectedCategory := selectedCategory s; categories := categories s |}
  | GenerateDone =>
      {| generating := false; outputFormat := outputFormat s;
         selectedCategory := selectedCategory s; categories := categories s |}
  end.

Definition run (evs : list event) (s : state) : state :=
  fold_left (fun s ev => step ev s) evs s.

(** The request [generateSummary] issues in state [s]. *)
Definition generateSummary_body (s : state) : gmap string jsval :=
  <["output_format" := JStr (outputFormat s)]>
    (<["category" := js_or (JStr (selectedCategory s)) JNull]>
       (<["limit" := JNum 20]> ∅)).

Definition generateSummary_request (s : state) : request :=
  {| req_method := POST; req_path := "/summarize"; req_params := [];
     req_body := Some (JObj (generateSummary_body s)) |}.

End Summaries.

(** ** Exports component (App.js 821-1073) *)

Module Exports.

Record state : Type := {
  exporting : bool;
  exportType : string;
  unexportedOnly : bool
}.

Definition init : state :=
  {| exporting := false; exportType := "notebooklm"; unexportedOnly := false |}.

(** The values of the three [SelectItem]s of the format [Select]. *)
Definition type_items : list string := ["notebooklm"; "jsonl"; "urls"].

Inductive event : Type :=
| SelectType (i : nat)                (* onValueChange={setExportType} *)
| SwitchUnexportedOnly (checked : bool)
| ExportStart
| ExportDone.

Definition step (ev : event) (s : state) : state :=
  match ev with
  | SelectType i =>
      match select_pick type_items i with
      | Some val =>
          {| exporting := exporting s; exportType := val;
             unexportedOnly := unexportedOnly s |}
      | None => s
      end
  | SwitchUnexportedOnly checked =>
      {| exporting := exporting s; exportType := exportType s;
         unexportedOnly := checked |}
  | ExportStart =>
      {| exporting := true; exportType := exportType s;
         unexportedOnly := unexportedOnly s |}
  | ExportDone =>
      {| exporting := false; exportType := exportType s;
         unexportedOnly := unexportedOnly s |}
  end.

Definition run (evs : list event) (s : state) : state :=
  fold_left (fun s ev => step ev s) evs s.

Definition createExport_body (s : state) : gmap string jsval :=
  <["export_type" := JStr (exportType s)]>
    (<["unexported_only" := JBool (unexportedOnly s)]>
       (<["mark_exported" := JBool true]>
          (<["limit" := JNum 100]> ∅))).

Definition createExport_request (s : state) : request :=
  {| req_method := POST; req_path := "/export"; req_params := [];
     req_body := Some (JObj (createExport_body s)) |}.

(** After the post resolved with [response.data = data]: the template
    literal reads [data.articles_count]; should that read throw, the
    [catch] reports the failure ([error.response] is then undefined). *)
Definition createExport_resolved (data : jsval) : toast :=
  match js_get data "articles_count" with
  | Ok c => ToastSuccess ("Exported " ++ js_to_string c ++ " articles")
  | TypeError _ => ToastError "Export failed"
  end.

(** After the post rejected, [detail] being
    [error.response?.data?.detail]. *)
Definition createExport_rejected (detail : jsval) : toast :=
  ToastError (js_to_string (js_or detail (JStr "Export failed"))).

(** [x.toFixed(1)] for the exact quotient [x = num / den], [den > 0]:
    the decimal with one fraction digit nearest to [x], the larger one on
    a tie.  Dividing an integer below 2^53 by a power of two is exact on
    doubles, so this is what [(bytes / 1024).toFixed(1)] yields. *)
Definition toFixed1 (num den : Z) : string :=
  let sign := if Z.ltb num 0 then "-" else "" in
  let n := (2 * 10 * Z.abs num + den) / (2 * den) in
  sign ++ Z_to_string (n / 10) ++ "." ++ Z_to_string (n mod 10).

Definition formatFileSize (bytes : Z) : string :=
  if Z.ltb bytes 1024 then Z_to_string bytes ++ " B"
  else if Z.ltb bytes (1024 * 1024) then toFixed1 bytes 1024 ++ " KB"
  else toFixed1 bytes (1024 * 1024) ++ " MB".

End Exports.

(** ** Dashboard component (App.js 103-233) *)

#[global] Instance result_bind : MBind result := fun A B k r => js_bind r k.

(** Own enumerable string-keyed properties, as [Object.entries] lists
    them; [undefined] and [null] cannot be converted to an object.  The
    order of an object's entries plays no part below. *)
Definition Object_entries (v : jsval) : result (list (string * jsval)) :=
  match v with
  | JUndefined | JNull => TypeError "Cannot convert undefined or null to object"
  | JObj m => Ok (map_to_list m)
  | JArr l => Ok (imap (fun i x => (Z_to_string (Z.of_nat i), x)) l)
  | JStr s =>
      Ok (imap (fun i c => (Z_to_string (Z.of_nat i), JStr (String c "")))
               (list_ascii_of_string s))
  | JBool _ | JNum _ => Ok []
  end.

Definition Object_keys (v : jsval) : result (list string) :=
  es ← Object_entries v; Ok (List.map fst es).

(** What React shows for [{v && element}]: the element when [v] is
    truthy; a falsy number as its digits; nothing for the other falsy
    values. *)
Inductive child : Type :=
| Nothing
| Digits (s : string)
| Element (text : string).

Definition js_and_element (v : jsval) (text : string) : child :=
  if truthy v then Element text
  else match v with
       | JNum n => Digits (Z_to_string n)
       | _ => Nothing
       end.

Module Dashboard.

(** [render toLocaleTimeString stats collecting] is the element tree that
    [Dashboard({ stats, onCollect, collecting })] returns, read off as a
    record; the counters and category counts are the values handed to
    React as children. *)
Section Render.

(** [new Date(v).toLocaleTimeString()], which depends on the locale of
    the browser; it yields a string for every value that JSON can carry. *)
Variable toLocaleTimeString : jsval -> string.

Record view : Type := {
  total_articles : jsval;
  active_sources : jsval;
  exported_articles : jsval;
  total_summaries : jsval;
  collect_disabled : bool;
  collect_label : string;
  scheduler_class : string;
  scheduler_text : string;
  next_collection : child;
  category_rows : list (string * jsval);
  no_categories_note : bool
}.

Definition render (stats : jsval) (collecting : bool) : result view :=
  ta ← js_get stats "total_articles";
  src ← js_get stats "active_sources";
  ex ← js_get stats "exported_articles";
  su ← js_get stats "total_summaries";
  running ← js_get stats "scheduler_running";
  next ← js_get stats "next_collection";
  by_category ← js_get stats "by_category";
  rows ← Object_entries (js_or by_category (JObj ∅));
  keys ← Object_keys (js_or by_category (JObj ∅));
  Ok {| total_articles := js_or ta (JNum 0);
        active_sources := js_or src (JNum 0);
        exported_articles := js_or ex (JNum 0);
        total_summaries := js_or su (JNum 0);
        collect_disabled := collecting;
        collect_label :=
          if collecting then "Collecting..." else "Collect News Now";
        scheduler_class :=
          "scheduler-status " ++
          (if truthy running then "running" else "stopped");
        scheduler_text :=
          "Scheduler: " ++ (if truthy running then "Running" else "Stopped");
        next_collection :=
          js_and_element next ("Next: " ++ toLocaleTimeString next);
        category_rows := rows;
        no_categories_note := Nat.eqb (length keys) 0 |}.

End Render.

(** The [useState({})] initial value of [stats] in [App]. *)
Definition initial_stats : jsval := JObj ∅.

End Dashboard.

(** ** Ingestion and export core

    The client above only calls these operations; their code is not part
    of the client file.  They are modelled from the written design
    (sections 3, 4.2, 4.4 and 4.5). *)

Module Core.

(** Modelled from the spec: the Article row of section 3 (the store itself
    is absent from the client file): id, title, description, canonical url,
    source reference, optional published timestamp, nullable category,
    exported flag, creation timestamp. *)
Record Article : Type := {
  a_id : Z;
  a_title : string;
  a_description : string;
  a_url : string;
  a_source : Z;
  a_published : option Z;
  a_category : option string;
  a_exported : bool;
  a_created : Z
}.

(** Modelled from the spec: the normalized item of section 4.1,
    (title, description, url, published_date). *)
Record NormalizedItem : Type := {
  n_title : string;
  n_description : string;
  n_url : string;
  n_published : option Z
}.

(** Modelled from the spec: the result [{created, article_id}] of
    [ingest] (section 4.2). *)
Record IngestResult : Type := {
  created : bool;
  article_id : Z
}.

(** Modelled from the spec: the dedup lookup of section 4.2, an exact,
    case-preserving match on the url. *)
Definition find_by_url (url : string) (store : list Article) : option Article :=
  List.find (fun a => String.eqb (a_url a) url) store.

(** Modelled from the spec: a stable unique id for a new row (section 3);
    one more than every id in the store. *)
Definition next_id (store : list Article) : Z :=
  1 + foldr (fun a m => Z.max (a_id a) m) 0 store.

(** Modelled from the spec: the row created for a new url (section 4.2),
    with [category = null] and [exported = false]. *)
Definition new_article (id : Z) (item : NormalizedItem) (source_id now : Z)
  : Article :=
  {| a_id := id; a_title := n_title item;
     a_description := n_description item;
     a_url := n_url item; a_source := source_id;
     a_published := n_published item;
     a_category := None; a_exported := false;
     a_created := now |}.

(** Modelled from the spec: [ingest(normalized_item, source_id)] of
    section 4.2.  If the url already exists the call is a no-op returning
    [created = false] and the existing id; otherwise a new row is
    created. *)
Definition ingest (item : NormalizedItem) (source_id now : Z)
    (store : list Article) : list Article * IngestResult :=
  match find_by_url (n_url item) store with
  | Some a => (store, {| created := false; article_id := a_id a |})
  | None =>
      let id := next_id store in
      ((store ++ [new_article id item source_id now])%list,
       {| created := true; article_id := id |})
  end.

(** Number of stored rows with the given url. *)
Definition rows_with_url (url : string) (store : list Article) : nat :=
  length (filter (fun a => a_url a = url) store).

(** Modelled from the spec: the three export formats of section 4.5. *)
Inductive export_type : Type := Notebooklm | Jsonl | Urls.

(** Modelled from the spec: one history entry per completed export
    (section 3): type, article count, timestamp, and the file it names. *)
Record ExportRecord : Type := {
  e_filename : string;
  e_type : export_type;
  e_count : nat;
  e_time : Z
}.

(** Modelled from the spec: the persisted state the Export Pipeline works
    on: the article store, the export files and the export history. *)
Record state : Type := {
  c_articles : list Article;
  c_files : gmap string string;
  c_history : list ExportRecord
}.

(** Modelled from the spec: what [export] reports (sections 4.5, 7):
    the count and file name, "nothing to export", or a failed write. *)
Inductive export_outcome : Type :=
| Exported (articles_count : nat) (filename : string)
| NothingToExport
| WriteFailed.

(** Modelled from the spec: "ordered by recency", newest first. *)
Definition newer (a b : Article) : Prop := (a_created b <= a_created a)%Z.

#[global] Instance newer_dec a b : Decision (newer a b).
Proof. unfold newer. apply _. Defined.

(** Modelled from the spec: selection of section 4.5, up to [limit]
    articles ordered by recency, filtered to [exported = false] when
    [unexported_only] is set. *)
Definition select_for_export (unexported_only : bool) (limit : nat)
    (store : list Article) : list Article :=
  take limit
    (merge_sort newer
       (filter (fun a => unexported_only && a_exported a = false) store)).

(** Modelled from the spec: one article with its [exported] flag set
    (section 4.5); nothing else of the row changes. *)
Definition set_exported (a : Article) : Article :=
  {| a_id := a_id a; a_title := a_title a; a_description := a_description a;
     a_url := a_url a; a_source := a_source a; a_published := a_published a;
     a_category := a_category a; a_exported := true;
     a_created := a_created a |}.

(** Modelled from the spec: flipping the [exported] flag on every selected
    article (section 4.5). *)
Definition mark_exported (ids : list Z) (store : list Article) : list Article :=
  (fun a => if bool_decide (a_id a ∈ ids) then set_exported a else a) <$> store.

(** Modelled from the spec: the format tag of an export file (section 3),
    spelled as the client's [export_type] values. *)
Definition type_tag (ty : export_type) : string :=
  match ty with
  | Notebooklm => "notebooklm"
  | Jsonl => "jsonl"
  | Urls => "urls"
  end.

(** Modelled from the spec: "a generated name embedding type and
    timestamp". *)
Definition export_filename (ty : export_type) (now : Z) : string :=
  "export_" ++ type_tag ty ++ "_" ++ Z_to_string now ++ ".txt".

Section Pipeline.

(** The rendering of a selection in a format, and whether the write of a
    file of that name and content succeeds: both belong to the
    environment of the pipeline. *)
Variable render_export : export_type -> list Article -> string.
Variable write_succeeds : string -> string -> bool.

(** Modelled from the spec: [export(export_type, unexported_only,
    mark_exported, limit)] of section 4.5.  An empty selection fails with
    "nothing to export"; the output is written as a new file; if the write
    fails nothing is marked and nothing is recorded; otherwise, with
    [mark_exported] set, every selected article is flagged, and one
    history entry is appended. *)
Definition export (ty : export_type) (unexported_only mark : bool)
    (limit : nat) (now : Z) (st : state) : export_outcome * state :=
  let sel := select_for_export unexported_only limit (c_articles st) in
  match sel with
  | [] => (NothingToExport, st)
  | _ :: _ =>
      let name := export_filename ty now in
      let content := render_export ty sel in
      if write_succeeds name content then
        (Exported (length sel) name,
         {| c_articles :=
              if mark then mark_exported (a_id <$> sel) (c_articles st)
              else c_articles st;
            c_files := <[name := content]> (c_files st);
            c_history :=
              (c_history st ++
               [ {| e_filename := name; e_type := ty;
                    e_count := length sel; e_time := now |} ])%list |})
      else (WriteFailed, st)
  end.

(** The classifier call of the Categorization step; [None] is a failed
    call. *)
Variable classify : Article -> option string.

(** Modelled from the spec: the Categorization step of section 4.4: an
    article with [category = null] receives the classifier's label (none
    on failure); an already categorized article is left alone. *)
Definition categorize (store : list Article) : list Article :=
  (fun a =>
     match a_category a with
     | Some _ => a
     | None =>
         {| a_id := a_id a; a_title := a_title a;
            a_description := a_description a; a_url := a_url a;
            a_source := a_source a; a_published := a_published a;
            a_category := classify a; a_exported := a_exported a;
            a_created := a_created a |}
     end) <$> store.

End Pipeline.

(** The flag of a row is kept: same row, and once set it stays set. *)
Definition flag_kept (a a' : Article) : Prop :=
  a_id a = a_id a' ∧ (a_exported a = true -> a_exported a' = true).

(** A normalized item and a stored row, for the closed statements. *)
Definition sample_item : NormalizedItem :=
  {| n_title := "Rocq 9.3 released"; n_description := "Release notes";
     n_url := "https://example.org/rocq-9-3"; n_published := Some 1700000000 |}.

Definition sample_row : Article :=
  {| a_id := 1; a_title := "Older story"; a_description := "";
     a_url := "https://example.org/older"; a_source := 1;
     a_published := None; a_category := None; a_exported := false;
     a_created := 1690000000 |}.

Definition sample_state : state :=
  {| c_articles := [sample_row]; c_files := ∅; c_history := [] |}.

End Core.

(** [s] ends with [suf]. *)
Fixpoint ends_with (suf s : string) : bool :=
  String.eqb s suf ||
  match s with
  | EmptyString => false
  | String _ s' => ends_with suf s'
  end.

(** Every character of [s] satisfies [P]. *)
Fixpoint all_chars (P : ascii -> bool) (s : string) : bool :=
  match s with
  | EmptyString => true
  | String c s' => P c && all_chars P s'
  end.

(** The characters a decimal rendering is made of. *)
Definition numeric_char (c : ascii) : bool :=
  existsb (Ascii.eqb c) (list_ascii_of_string "0123456789-").

(** ** Further parts of the client *)

(** [String.prototype.toLowerCase] on a string of ASCII characters: the
    letters A-Z go to a-z, every other character stays. *)
Definition lower_char (c : ascii) : ascii :=
  let n := nat_of_ascii c in
  if (65 <=? n)%nat && (n <=? 90)%nat then ascii_of_nat (n + 32) else c.

Fixpoint toLowerCase (s : string) : string :=
  match s with
  | EmptyString => EmptyString
  | String c s' => String (lower_char c) (toLowerCase s')
  end.

(** [sub] is an initial segment of [s]. *)
Fixpoint starts_with (sub s : string) : bool :=
  match sub, s with
  | EmptyString, _ => true
  | String _ _, EmptyString => false
  | String a sub', String b s' => Ascii.eqb a b && starts_with sub' s'
  end.

(** [s.includes(sub)] *)
Fixpoint includes (s sub : string) : bool :=
  starts_with sub s ||
  match s with
  | EmptyString => false
  | String _ s' => includes s' sub
  end.

(** Every character is an ASCII character. *)
Definition is_ascii (s : string) : bool :=
  all_chars (fun c => (nat_of_ascii c <? 128)%nat) s.

(** [v === s] for a string literal [s]. *)
Definition js_strict_eq_str (v : jsval) (s : string) : bool :=
  match v with
  | JStr t => String.eqb t s
  | _ => false
  end.

(** *** Articles: the category badge and the pagination buttons
    (App.js 285-293, 400-420) *)

Module ArticlesMore.
Import Articles.

Definition badge_classes : list string :=
  ["badge-default"; "badge-ai"; "badge-dev"; "badge-security"; "badge-tech"].

(** [getCategoryBadgeClass(cat)]: a falsy [cat] gets the default class; a
    string is classified by the keywords its lower-case form includes,
    first match first; on any other truthy value [cat.toLowerCase] is not
    a function. *)
Definition getCategoryBadgeClass (cat : jsval) : result string :=
  if negb (truthy cat) then Ok "badge-default"
  else match cat with
       | JStr c =>
           let lower := toLowerCase c in
           if includes lower "ai" || includes lower "ml" then Ok "badge-ai"
           else if includes lower "software" || includes lower "dev"
                then Ok "badge-dev"
           else if includes lower "security" then Ok "badge-security"
           else if includes lower "tech" then Ok "badge-tech"
           else Ok "badge-default"
       | _ => TypeError "cat.toLowerCase is not a function"
       end.

(** The pagination is part of the tree only in the listing branch. *)
Definition pagination_shown (s : state) : bool :=
  negb (loading s) && negb (Nat.eqb (length (articles s)) 0).

(** A click on the previous-page button: it reaches [onClick] only when
    the button is shown and not disabled. *)
Definition click_prev (s : state) : state :=
  if pagination_shown s && negb (prev_disabled (render_pagination s))
  then step ClickPrev s else s.

(** A click on the next-page button, likewise. *)
Definition click_next (s : state) : state :=
  if pagination_shown s && negb (next_disabled (render_pagination s))
  then step ClickNext s else s.

End ArticlesMore.

(** *** Sources: the icon of a kind and the writes of the form
    (App.js 503-514, 575-583, 612-650) *)

Module SourcesMore.
Import Sources.

Inductive icon : Type := Rss | MessageSquare | Code | Globe.

(** [getSourceIcon(type)] *)
Definition getSourceIcon (type : string) : icon :=
  if String.eqb type "rss" then Rss
  else if String.eqb type "reddit" then MessageSquare
  else if String.eqb type "scraper" then Code
  else Globe.

(** The property an event writes into [formData], if any. *)
Definition field_write (ev : event) : option (string * jsval) :=
  match ev with
  | ChangeName v => Some ("name", JStr v)
  | SelectType i =>
      match select_pick type_items i with
      | Some val => Some ("type", JStr val)
      | None => None
      end
  | ChangeUrl v => Some ("url", JStr v)
  | SwitchEnabled checked => Some ("enabled", JBool checked)
  | _ => None
  end.

(** The value last written to property [k], oldest event first. *)
Definition last_write (k : string) (evs : list event) : option jsval :=
  last (omap (fun ev => match field_write ev with
                        | Some (k', v) => if String.eqb k' k then Some v else None
                        | None => None
                        end) evs).

(** The event neither opens another form nor completes a submit. *)
Definition keeps_form (ev : event) : bool :=
  match ev with
  | ClickAdd | ClickEdit _ | SubmitOk => false
  | _ => true
  end.

End SourcesMore.

(** *** Summaries: categories as listed (App.js 687-694, 732-747) *)

Module SummariesMore.
Import Summaries.

(** No category the server lists is the empty string. *)
Definition lists_named_categories (ev : event) : Prop :=
  match ev with
  | CategoriesOk cats => "" ∉ cats
  | _ => True
  end.

End SummariesMore.

(** *** SettingsPage component (App.js 1076-1260) *)

Module SettingsPage.

Record state : Type := {
  settings : gmap string jsval;
  loading : bool;
  saving : bool;
  schedulerRunning : jsval
}.

Definition init : state :=
  {| settings := ∅; loading := true; saving := false;
     schedulerRunning := JBool false |}.

(** The values of the two [SelectItem]s of the model [Select]. *)
Definition model_items : list string := ["gpt-4o-mini"; "gpt-4o"].

Inductive event : Type :=
| SettingsOk (loaded : gmap string jsval) (running : jsval)
| SettingsFail
| ChangeInterval (v : string)         (* e.target.value of the input *)
| SwitchAuto (checked : bool)
| SelectModel (i : nat)
| ChangeCategories (v : string)
| ChangeMaxArticles (v : string)
| SaveStart
| SaveDone
| StatusOk (running : jsval).         (* toggleScheduler, after the get *)

(** [setSettings({ ...settings, k: v })] *)
Definition set_setting (k : string) (v : jsval) (s : state) : state :=
  {| settings := <[k := v]> (settings s); loading := loading s;
     saving := saving s; schedulerRunning := schedulerRunning s |}.

Definition step (ev : event) (s : state) : state :=
  match ev with
  | SettingsOk loaded running =>
      {| settings := loaded; loading := false; saving := saving s;
         schedulerRunning := running |}
  | SettingsFail =>
      {| settings := settings s; loading := false; saving := saving s;
         schedulerRunning := schedulerRunning s |}
  | ChangeInterval v => set_setting "schedule_interval" (JStr v) s
  | SwitchAuto checked =>
      set_setting "auto_summarize" (JStr (if checked then "true" else "false")) s
  | SelectModel i =>
      match select_pick model_items i with
      | Some val => set_setting "llm_model" (JStr val) s
      | None => s
      end
  | ChangeCategories v => set_setting "categories" (JStr v) s
  | ChangeMaxArticles v => set_setting "max_articles_per_fetch" (JStr v) s
  | SaveStart =>
      {| settings := settings s; loading := loading s; saving := true;
         schedulerRunning := schedulerRunning s |}
  | SaveDone =>
      {| settings := settings s; loading := loading s; saving := false;
         schedulerRunning := schedulerRunning s |}
  | StatusOk running =>
      {| settings := settings s; loading := loading s; saving := saving s;
         schedulerRunning := running |}
  end.

Definition run (evs : list event) (s : state) : state :=
  fold_left (fun s ev => step ev s) evs s.

(** The request [saveSettings] issues: [{ settings }]. *)
Definition saveSettings_request (s : state) : request :=
  {| req_method := PUT; req_path := "/settings"; req_params := [];
     req_body := Some (JObj (<["settings" := JObj (settings s)]> ∅)) |}.

(** The first request [toggleScheduler] issues. *)
Definition toggleScheduler_request (s : state) : request :=
  {| req_method := POST;
     req_path := if truthy (schedulerRunning s) then "/scheduler/stop"
                 else "/scheduler/start";
     req_params := []; req_body := None |}.

(** What the controls of the form show. *)
Record view : Type := {
  scheduler_label : string;
  scheduler_checked : jsval;
  interval_value : jsval;
  auto_checked : bool;
  model_value : jsval;
  categories_value : jsval;
  max_articles_value : jsval
}.

Definition render (s : state) : option view :=
  if loading s then None
  else
    Some {| scheduler_label :=
              if truthy (schedulerRunning s) then "Running" else "Stopped";
            scheduler_checked := schedulerRunning s;
            interval_value :=
              js_or (js_prop (settings s) "schedule_interval") (JNum 60);
            auto_checked :=
              js_strict_eq_str (js_prop (settings s) "auto_summarize") "true";
            model_value :=
              js_or (js_prop (settings s) "llm_model") (JStr "gpt-4o-mini");
            categories_value :=
              js_or (js_prop (settings s) "categories") (JStr "");
            max_articles_value :=
              js_or (js_prop (settings s) "max_articles_per_fetch") (JNum 50) |}.

(** The keys the form writes. *)
Definition form_keys : list string :=
  ["schedule_interval"; "auto_summarize"; "llm_model"; "categories";
   "max_articles_per_fetch"].

(** The event is not a (re)load of the settings. *)
Definition keeps_loaded (ev : event) : bool :=
  match ev with
  | SettingsOk _ _ => false
  | _ => true
  end.

End SettingsPage.

(** *** Sidebar and App (App.js 60-100, 1263-1327) *)

Module App.

(** The [id]s of [navItems], in order. *)
Definition navItems : list string :=
  ["dashboard"; "articles"; "sources"; "summaries"; "exports"; "settings"].

Inductive page : Type :=
| PDashboard | PArticles | PSources | PSummaries | PExports | PSettingsPage.

(** [renderContent()]: the [switch] on [activeTab], with the Dashboard as
    its [default]. *)
Definition renderContent (activeTab : string) : page :=
  if String.eqb activeTab "dashboard" then PDashboard
  else if String.eqb activeTab "articles" then PArticles
  else if String.eqb activeTab "sources" then PSources
  else if String.eqb activeTab "summaries" then PSummaries
  else if String.eqb activeTab "exports" then PExports
  else if String.eqb activeTab "settings" then PSettingsPage
  else PDashboard.

(** The component each nav id names. *)
Definition page_of_nav (id : string) : option page :=
  if String.eqb id "dashboard" then Some PDashboard
  else if String.eqb id "articles" then Some PArticles
  else if String.eqb id "sources" then Some PSources
  else if String.eqb id "summaries" then Some PSummaries
  else if String.eqb id "exports" then Some PExports
  else if String.eqb id "settings" then Some PSettingsPage
  else None.

(** [collecting] is the state of [App]; [pending] counts the posts to
    /collect/sync that [handleCollect] is awaiting. *)
Record state : Type := {
  activeTab : string;
  collecting : bool;
  pending : nat
}.

Definition init : state :=
  {| activeTab := "dashboard"; collecting := false; pending := 0 |}.

Inductive event : Type :=
| ClickNav (i : nat)                  (* onClick of the i-th nav button *)
| ClickCollect                        (* the "Collect News Now" button *)
| CollectSettled.                     (* the awaited post resolved or rejected *)

(** The class of a nav button. *)
Definition nav_class (activeTab id : string) : string :=
  "nav-item " ++ (if String.eqb activeTab id then "active" else "").

Definition step (ev : event) (s : state) : state :=
  match ev with
  | ClickNav i =>
      match navItems !! i with
      | Some id =>
          {| activeTab := id; collecting := collecting s; pending := pending s |}
      | None => s
      end
  | ClickCollect =>
      (* the button is in the tree on the Dashboard only, and a disabled
         button does not reach [onCollect] *)
      match renderContent (activeTab s), collecting s with
      | PDashboard, false =>
          {| activeTab := activeTab s; collecting := true;
             pending := S (pending s) |}
      | _, _ => s
      end
  | CollectSettled =>
      match pending s with
      | O => s
      | S n =>
          {| activeTab := activeTab s; collecting := false; pending := n |}
      end
  end.

Definition run (evs : list event) (s : state) : state :=
  fold_left (fun s ev => step ev s) evs s.

End App.

Example Z_to_string_20 : Z_to_string 20 = "20".
Proof. reflexivity. Qed.
Example Z_to_string_neg : Z_to_string (-5) = "-5".
Proof. reflexivity. Qed.
Example Z_to_string_0 : Z_to_string 0 = "0".
Proof. reflexivity. Qed.
Example page_count_0 : Articles.page_count 0 = 1.
Proof. reflexivity. Qed.
Example page_count_41 : Articles.page_count 41 = 3.
Proof. reflexivity. Qed.
Example page_count_40 : Articles.page_count 40 = 2.
Proof. reflexivity. Qed.
Example Dashboard_null_stats_throws :
  Dashboard.render (fun _ => "12:00:00") JNull false
  = TypeError "Cannot read properties of undefined or null".
Proof. reflexivity. Qed.
Example Dashboard_zero_next_collection :
  js_and_element (JNum 0) "Next: " = Digits "0".
Proof. reflexivity. Qed.
Example js_to_string_array :
  js_to_string (JArr [JNum 1; JNull; JStr "a"]) = "1,,a".
Proof. reflexivity. Qed.
Example handleToggle_path :
  req_path (Sources.handleToggle_request Sources.hn_source) = "/sources/1".
Proof. reflexivity. Qed.
Example select_newest_first :
  Core.a_id <$> Core.select_for_export false 1
    [Core.sample_row; Core.new_article 2 Core.sample_item 1 1700000000] = [2].
Proof. reflexivity. Qed.
Example formatFileSize_512 : Exports.formatFileSize 512 = "512 B".
Proof. reflexivity. Qed.
Example formatFileSize_1536 : Exports.formatFileSize 1536 = "1.5 KB".
Proof. reflexivity. Qed.
Example formatFileSize_1100 : Exports.formatFileSize 1100 = "1.1 KB".
Proof. reflexivity. Qed.
Example formatFileSize_top_kb : Exports.formatFileSize 1048575 = "1024.0 KB".
Proof. reflexivity. Qed.
Example formatFileSize_mb : Exports.formatFileSize 5242880 = "5.0 MB".
Proof. reflexivity. Qed.

(** * Properties *)

(** ** Articles: request, pagination, badge *)

Section ArticlesFacts.
Import Articles.

Lemma append_if_elem k v params k' v' :
  (k', v') ∈ append_if k v params ↔
  (k', v') ∈ params ∨ (k' = k ∧ v' = v ∧ v ≠ "").
Proof.
  unfold append_if. destruct (String.eqb_spec v "") as [->|Hne]; simpl.
  - split; [auto | intros [?|(_ & _ & ?)]; [done | congruence]].
  - rewrite elem_of_app, list_elem_of_singleton. split.
    + intros [?|Heq]; [auto | inversion Heq; auto].
    + intros [?|(-> & -> & _)]; auto.
Qed.

Lemma step_page_nonneg ev s : 0 <= page s -> 0 <= page (step ev s).
Proof. destruct ev; simpl; lia. Qed.

Lemma run_page_nonneg evs s : 0 <= page s -> 0 <= page (run evs s).
Proof.
  revert s. induction evs as [|ev evs IH]; intros s Hs; simpl; [done|].
  apply IH, step_page_nonneg, Hs.
Qed.

Lemma Z_to_string_reads_back z :
  Z.of_int <$> NilZero.int_of_string (Z_to_string z) = Some z.
Proof.
  unfold Z_to_string. rewrite NilZero.isi.
  - cbn. by rewrite DecimalZ.of_to.
  - destruct z; cbn; try discriminate.
    intros [= H]. by apply DecimalPos.Unsigned.to_uint_nonnil in H.
  - destruct z; cbn; try discriminate.
    intros [= H]. by apply DecimalPos.Unsigned.to_uint_nonnil in H.
Qed.

(** [page_count t] is [c || 1] for the ceiling [c] of [t / 20]. *)
Lemma page_count_is_ceiling t :
  ∃ c, 20 * (c - 1) < t <= 20 * c ∧ page_count t = if Z.eqb c 0 then 1 else c.
Proof.
  exists (- (- t / 20)). unfold page_count, limit. split; [|done].
  pose proof (Z.div_mod (- t) 20 ltac:(lia)) as Hdm.
  pose proof (Z.mod_pos_bound (- t) 20 ltac:(lia)) as Hb. lia.
Qed.

(** What a row shows of its article: the id as key, the url as link, the
    title, the description, the source name or "Unknown Source", and the
    badge when [exported] is the number 1. *)
Lemma render_article_fields (l : list (gmap string jsval)) :
  Forall2 (fun a row =>
             v_key row = default JUndefined (a !! "id") ∧
             v_href row = default JUndefined (a !! "url") ∧
             v_title row = default JUndefined (a !! "title") ∧
             v_description row = default JUndefined (a !! "description") ∧
             v_source_name row =
               (if truthy (default JUndefined (a !! "source_name"))
                then default JUndefined (a !! "source_name")
                else JStr "Unknown Source") ∧
             (v_exported_badge row = true ↔ a !! "exported" = Some (JNum 1)))
          l (List.map render_article l).
Proof.
  induction l as [|a l IH]; [constructor|]. cbn [List.map]. constructor; [|done].
  unfold render_article, js_prop, js_or, js_strict_eq_num.
  cbn [v_key v_href v_title v_description v_source_name v_exported_badge].
  split_and!; try done.
  destruct (a !! "exported") as [[]|]; cbn; split; try done.
  - by intros ->%Z.eqb_eq.
  - by intros [= ->].
Qed.

(** C5: in every state, hence for every page index [p = page s],
    [fetchArticles] issues GET /articles whose parameters are exactly
    limit = 20, offset = 20 * p (in decimal), search when the search text
    is non-empty and category when the category is non-empty (limit
    first, offset second); once the reply arrives the list shows one row
    per returned article, in order, each with the id, url, title,
    description and source name of its article, or the empty state when
    none was returned, and the page count shown is the ceiling of the
    returned total over 20, or 1 when that is 0. *)
Theorem fetchArticles_request_and_listing (s : state) (r : response) :
  let q := fetchArticles_request s in
  let s' := step (FetchOk r) s in
  req_method q = GET ∧ req_path q = "/articles" ∧ req_body q = None ∧
  req_params q !! 0%nat = Some ("limit", "20") ∧
  req_params q !! 1%nat = Some ("offset", Z_to_string (20 * page s)) ∧
  (∃ off, req_params q !! 1%nat = Some ("offset", off) ∧
          Z.of_int <$> NilZero.int_of_string off = Some (20 * page s)) ∧
  (∀ k v, (k, v) ∈ req_params q ↔
          (k = "limit" ∧ v = "20") ∨
          (k = "offset" ∧ v = Z_to_string (20 * page s)) ∨
          (k = "search" ∧ v = search s ∧ v ≠ "") ∨
          (k = "category" ∧ v = category s ∧ v ≠ "")) ∧
  articles s' = r_articles r ∧ total s' = r_total r ∧ page s' = page s ∧
  match render s' with
  | Spinner => False
  | EmptyState => r_articles r = []
  | Listing rows pg =>
      r_articles r ≠ [] ∧
      rows = List.map render_article (r_articles r) ∧
      List.map v_key rows = List.map (fun a => js_prop a "id") (r_articles r) ∧
      Forall2 (fun a row =>
                 v_key row = default JUndefined (a !! "id") ∧
                 v_href row = default JUndefined (a !! "url") ∧
                 v_title row = default JUndefined (a !! "title") ∧
                 v_description row = default JUndefined (a !! "description") ∧
                 v_source_name row =
                   (if truthy (default JUndefined (a !! "source_name"))
                    then default JUndefined (a !! "source_name")
                    else JStr "Unknown Source") ∧
                 (v_exported_badge row = true ↔ a !! "exported" = Some (JNum 1)))
              (r_articles r) rows ∧
      page_shown pg = page s + 1 ∧
      pages_of pg = page_count (r_total r) ∧
      (∃ c, 20 * (c - 1) < r_total r <= 20 * c ∧
            pages_of pg = if Z.eqb c 0 then 1 else c)
  end.
Proof.
  intros q s'. subst q s'. unfold fetchArticles_request.
  cbn [req_method req_path req_body req_params step articles total page].
  replace (page s * limit) with (20 * page s) by (unfold limit; lia).
  assert (H1 : append_if "category" (category s)
                 (append_if "search" (search s)
                    [("limit", Z_to_string limit);
                     ("offset", Z_to_string (20 * page s))]) !! 1%nat
               = Some ("offset", Z_to_string (20 * page s))).
  { unfold append_if. destruct (negb (String.eqb (search s) ""));
      destruct (negb (String.eqb (category s) "")); reflexivity. }
  split; [done|]. split; [done|]. split; [done|]. split.
  { unfold append_if. destruct (negb (String.eqb (search s) ""));
      destruct (negb (String.eqb (category s) "")); reflexivity. }
  split; [exact H1|]. split.
  { eexists. split; [exact H1 | apply Z_to_string_reads_back]. }
  split.
  { intros k v. rewrite !append_if_elem, !elem_of_cons, elem_of_nil.
    unfold limit. naive_solver. }
  split; [done|]. split; [done|]. split; [done|].
  unfold render. cbn [loading articles].
  destruct (r_articles r) as [|a l] eqn:Hr; [done|].
  cbn [length Nat.eqb]. split; [done|]. split; [done|].
  split; [by rewrite List.map_map|].
  split; [apply render_article_fields|].
  cbn [render_pagination page_shown pages_of total page].
  split; [done|]. split; [done|]. apply page_count_is_ceiling.
Qed.

(** C9: the page index starts at 0 and is non-negative after every
    sequence of events; a change of the search text or of the category
    filter puts it back to 0; the previous-page button is disabled exactly
    when page = 0 and the next-page button exactly when
    (page + 1) * 20 >= total. *)
Theorem page_index_never_negative (evs : list event) :
  let s := run evs init in
  page init = 0 ∧ 0 <= page s ∧
  (∀ v, page (step (ChangeSearch v) s) = 0) ∧
  (∀ val, page (step (SelectCategory val) s) = 0) ∧
  (prev_disabled (render_pagination s) = true ↔ page s = 0) ∧
  (next_disabled (render_pagination s) = true ↔ (page s + 1) * 20 >= total s).
Proof.
  intros s. subst s. repeat split; try done.
  - apply run_page_nonneg. simpl. lia.
  - simpl. apply Z.eqb_eq.
  - simpl. apply Z.eqb_eq.
  - simpl. unfold limit. rewrite Z.geb_leb. intros H%Z.leb_le. lia.
  - simpl. unfold limit. rewrite Z.geb_leb. intros H. apply Z.leb_le. lia.
Qed.

(** C7: the guard of the badge is [article.exported === 1], so the flag
    travels as the number 0 or 1.  For every article of a reply whose
    flags are so encoded, the "Exported" badge is shown exactly when the
    flag is set (the number 1) and no badge is shown when it is unset
    (the number 0); row by row, the listing shows the badge exactly on
    the articles whose flag is set. *)
Theorem exported_badge_iff_flag_set (s : state) (r : response) :
  Forall (fun a => a !! "exported" = Some (JNum 0) ∨
                   a !! "exported" = Some (JNum 1)) (r_articles r) ->
  (∀ a, a ∈ r_articles r ->
        (v_exported_badge (render_article a) = true ↔
         exported_flag_set a = true) ∧
        (v_exported_badge (render_article a) = true ↔
         a !! "exported" = Some (JNum 1)) ∧
        (v_exported_badge (render_article a) = false ↔
         a !! "exported" = Some (JNum 0))) ∧
  (∀ a, v_exported_badge (render_article a) = true ↔
        a !! "exported" = Some (JNum 1)) ∧
  match render (step (FetchOk r) s) with
  | Spinner => False
  | EmptyState => r_articles r = []
  | Listing rows _ =>
      List.map v_exported_badge rows = List.map exported_flag_set (r_articles r) ∧
      Forall2 (fun a row =>
                 v_exported_badge row = true ↔ a !! "exported" = Some (JNum 1))
              (r_articles r) rows
  end.
Proof.
  intros Henc.
  assert (Hone : ∀ a, a !! "exported" = Some (JNum 0) ∨ a !! "exported" = Some (JNum 1) ->
            v_exported_badge (render_article a) = exported_flag_set a ∧
            (v_exported_badge (render_article a) = true ↔
             a !! "exported" = Some (JNum 1)) ∧
            (v_exported_badge (render_article a) = false ↔
             a !! "exported" = Some (JNum 0))).
  { intros a Ha. unfold render_article, exported_flag_set, js_prop, js_strict_eq_num.
    cbn [v_exported_badge]. destruct Ha as [-> | ->]; cbn; split_and!; done. }
  split; [|split].
  - intros a Ha. rewrite Forall_forall in Henc.
    destruct (Hone a (Henc a Ha)) as (H1 & H2 & H3). rewrite <- H1. done.
  - intros a. unfold render_article, js_prop, js_strict_eq_num.
    cbn [v_exported_badge].
    destruct (a !! "exported") as [[]|]; cbn; split; try done.
    + by intros ->%Z.eqb_eq.
    + by intros [= ->].
  - assert (Hrows : ∀ l : list (gmap string jsval),
              Forall (fun a => a !! "exported" = Some (JNum 0) ∨
                               a !! "exported" = Some (JNum 1)) l ->
              List.map v_exported_badge (List.map render_article l)
                = List.map exported_flag_set l ∧
              Forall2 (fun a row => v_exported_badge row = true ↔
                                    a !! "exported" = Some (JNum 1))
                      l (List.map render_article l)).
    { induction l as [|b l IH]; intros Hl; [split; [done | constructor]|].
      apply Forall_cons in Hl as [Hb Hl]. destruct (IH Hl) as [IH1 IH2].
      cbn [List.map]. destruct (Hone b Hb) as (H1 & H2 & _). split.
      - by rewrite IH1, H1.
      - by constructor. }
    specialize (Hrows (r_articles r) Henc).
    unfold render. cbn [step loading articles].
    destruct (r_articles r) as [|a l]; [done|]. exact Hrows.
Qed.

Lemma exported_badge_iff_flag_set_witness :
  Forall (fun a : gmap string jsval =>
            a !! "exported" = Some (JNum 0) ∨ a !! "exported" = Some (JNum 1))
         [ {["exported" := JNum 1]}; {["exported" := JNum 0]} ] ∧
  match render (step (FetchOk {| r_articles := [ {["exported" := JNum 1]};
                                                  {["exported" := JNum 0]} ];
                                 r_total := 2 |}) init) with
  | Listing rows _ => List.map v_exported_badge rows = [true; false]
  | _ => False
  end.
Proof.
  assert (Henc : Forall (fun a : gmap string jsval =>
                    a !! "exported" = Some (JNum 0) ∨ a !! "exported" = Some (JNum 1))
                   [ {["exported" := JNum 1]}; {["exported" := JNum 0]} ]).
  { apply Forall_cons_2; [right; reflexivity|].
    apply Forall_cons_2; [left; reflexivity | apply Forall_nil_2]. }
  split; [exact Henc|].
  destruct (exported_badge_iff_flag_set init
              {| r_articles := [ {["exported" := JNum 1]}; {["exported" := JNum 0]} ];
                 r_total := 2 |} Henc) as (_ & _ & H).
  cbn in H. destruct H as [H _]. cbn. exact H.
Defined.

End ArticlesFacts.

(** ** Sources: the bodies of the update requests *)

Section SourcesFacts.
Import Sources.

Lemma blank_form_ok : form_ok blank_form.
Proof.
  split_and!.
  - unfold blank_form. rewrite !dom_insert_L, dom_empty_L. set_solver.
  - unfold blank_form, all_defined.
    repeat (apply map_Forall_insert_2; [done|]). apply map_Forall_empty.
  - exists "rss". split; [reflexivity | set_solver].
Qed.

Lemma set_field_ok k v s :
  k ∈ ["name"; "url"; "enabled"] -> v ≠ JUndefined ->
  form_ok (formData s) -> form_ok (formData (set_field k v s)).
Proof.
  intros Hk Hv (Hdom & Hdef & t & Ht & Hin). simpl. split_and!.
  - rewrite dom_insert_L, Hdom. set_solver.
  - by apply map_Forall_insert_2.
  - exists t. split; [|done]. rewrite lookup_insert_ne; [done|].
    intros ->. set_solver.
Qed.

Lemma step_form_ok ev s :
  edits_listed_kind ev -> form_ok (formData s) -> form_ok (formData (step ev s)).
Proof.
  intros Hev Hs. destruct ev; unfold step; cbn [formData];
    try done; try apply blank_form_ok.
  - destruct Hev as ((t & Ht & Hin) & Hname & Hurl & Hen). split_and!.
    + rewrite !dom_insert_L, dom_empty_L. set_solver.
    + unfold all_defined.
      repeat (apply map_Forall_insert_2; [try done|]); [|apply map_Forall_empty].
      unfold js_prop. by rewrite Ht.
    + exists t. split; [|done].
      rewrite lookup_insert_ne by done. rewrite lookup_insert_eq.
      unfold js_prop. by rewrite Ht.
  - apply set_field_ok; [set_solver | done | done].
  - unfold select_pick. destruct (type_items !! i) as [val|] eqn:Hi; [|done].
    destruct Hs as (Hdom & Hdef & _). simpl. split_and!.
    + rewrite dom_insert_L, Hdom. set_solver.
    + by apply map_Forall_insert_2.
    + exists val. split; [apply lookup_insert_eq|].
      eapply list_elem_of_lookup_2, Hi.
  - apply set_field_ok; [set_solver | done | done].
  - apply set_field_ok; [set_solver | done | done].
Qed.

Lemma run_form_ok evs s :
  Forall edits_listed_kind evs -> form_ok (formData s) ->
  form_ok (formData (run evs s)).
Proof.
  revert s. induction evs as [|ev evs IH]; intros s Hevs Hs; simpl; [done|].
  inversion Hevs; subst. apply IH; [done|]. by apply step_form_ok.
Qed.

Lemma handleSubmit_body s : req_body (handleSubmit_request s) = Some (JObj (formData s)).
Proof. unfold handleSubmit_request. by destruct (editingSource s). Qed.

(** [handleToggle] is bound to no element of the component, so no event
    reaches it; the request it would issue carries [enabled] alone. *)
Lemma handleToggle_sends_enabled_only (source : gmap string jsval) :
  req_method (handleToggle_request source) = PUT ∧
  req_body (handleToggle_request source)
    = Some (JObj {["enabled" := JBool (negb (truthy (js_prop source "enabled")))]}).
Proof. split; reflexivity. Qed.

(** C2: [handleSubmit] is the one place that issues PUT /sources/{id}
    (when a source is being edited; otherwise it issues POST /sources).
    After every sequence of events in which the sources opened for
    editing are as the server lists them, {name, type in {rss, reddit,
    scraper}, url, enabled}, the body it sends has exactly the properties
    name, type, url and enabled, each with a value, and its type is rss,
    reddit or scraper. *)
Theorem source_update_bodies (evs : list event) :
  Forall edits_listed_kind evs ->
  let s := run evs init in
  (∀ src, editingSource s = Some src ->
          req_method (handleSubmit_request s) = PUT ∧
          req_path (handleSubmit_request s)
            = "/sources/" ++ js_to_string (js_prop src "id")) ∧
  (editingSource s = None ->
   req_method (handleSubmit_request s) = POST ∧
   req_path (handleSubmit_request s) = "/sources") ∧
  full_source_shape (req_body (handleSubmit_request s)) ∧
  type_in_closed_set (req_body (handleSubmit_request s)) ∧
  (∃ m t, req_body (handleSubmit_request s) = Some (JObj m) ∧
          dom m = ({["name"; "type"; "url"; "enabled"]} : gset string) ∧
          (∀ k v, m !! k = Some v -> v ≠ JUndefined) ∧
          m !! "type" = Some (JStr t) ∧
          (t = "rss" ∨ t = "reddit" ∨ t = "scraper")).
Proof.
  intros Hevs s.
  assert (Hok : form_ok (formData s)) by (apply run_form_ok; [done | apply blank_form_ok]).
  destruct Hok as (Hdom & Hdef & t & Ht & Hin).
  split; [|split; [|split; [|split]]].
  - intros src Hsrc. unfold handleSubmit_request. rewrite Hsrc. done.
  - intros Hnone. unfold handleSubmit_request. rewrite Hnone. done.
  - exists (formData s). split; [apply handleSubmit_body | done].
  - exists (formData s), t. split; [apply handleSubmit_body | done].
  - exists (formData s), t. split; [apply handleSubmit_body|].
    split; [done|]. split; [exact Hdef|]. split; [done|].
    unfold type_items in Hin. set_solver.
Qed.

Lemma source_update_bodies_witness :
  let evs := [ClickEdit hn_source; ChangeName "HN"; SelectType 1; SwitchEnabled false] in
  Forall edits_listed_kind evs ∧
  req_method (handleSubmit_request (run evs init)) = PUT ∧
  full_source_shape (req_body (handleSubmit_request (run evs init))) ∧
  type_in_closed_set (req_body (handleSubmit_request (run evs init))).
Proof.
  intros evs.
  assert (Hevs : Forall edits_listed_kind evs).
  { repeat constructor; try done. exists "rss". split; [reflexivity | set_solver]. }
  split; [exact Hevs|].
  pose proof (source_update_bodies evs Hevs) as H.
  cbv zeta in H. destruct H as (_ & _ & H1 & H2 & _).
  split; [reflexivity|]. split; [exact H1 | exact H2].
Defined.

End SourcesFacts.

(** ** Summaries: the category of the summarize request *)

Section SummariesFacts.
Import Summaries.

(** C3: with nothing picked in the category [Select] (its placeholder
    reads "All Categories") the body has category = null; after the item
    "All Categories" itself is picked, in whatever state, the body has
    category = "all" and not null.  The article list's handler of the same
    item maps the value "all" to the empty category. *)
Theorem all_categories_item_sends_all (evs : list event) :
  let s := step (SelectCategory 0) (run evs init) in
  generateSummary_body init !! "category" = Some JNull ∧
  select_pick (category_items (run evs init)) 0 = Some "all" ∧
  selectedCategory s = "all" ∧
  generateSummary_body s !! "category" = Some (JStr "all") ∧
  generateSummary_body s !! "category" ≠ Some JNull ∧
  generateSummary_body s !! "limit" = Some (JNum 20) ∧
  (∀ a, Articles.category (Articles.step (Articles.SelectCategory "all") a) = "").
Proof.
  intros s. subst s. simpl. repeat split; done.
Qed.

End SummariesFacts.

(** ** Exports: the export request and the size column *)

Section ExportsFacts.
Import Exports.

Lemma step_exportType ev s :
  exportType s ∈ type_items -> exportType (step ev s) ∈ type_items.
Proof.
  intros Hs. destruct ev; unfold step; cbn [exportType]; try done.
  unfold select_pick. destruct (type_items !! i) as [val|] eqn:Hi; [|done].
  cbn [exportType]. eapply list_elem_of_lookup_2, Hi.
Qed.

Lemma run_exportType evs s :
  exportType s ∈ type_items -> exportType (run evs s) ∈ type_items.
Proof.
  revert s. induction evs as [|ev evs IH]; intros s Hs; simpl; [done|].
  apply IH, step_exportType, Hs.
Qed.

(** C4: after every sequence of events the request [createExport] issues
    is POST /export with export_type one of notebooklm, jsonl, urls,
    mark_exported = true, limit = 100 and unexported_only as the switch
    stands; when the reply is an object, the success message reports its
    articles_count property. *)
Theorem createExport_request_shape (evs : list event) (data : gmap string jsval) :
  let s := run evs init in
  let b := createExport_body s in
  req_method (createExport_request s) = POST ∧
  req_path (createExport_request s) = "/export" ∧
  req_body (createExport_request s) = Some (JObj b) ∧
  dom b = ({["export_type"; "unexported_only"; "mark_exported"; "limit"]} : gset string) ∧
  (∃ t, b !! "export_type" = Some (JStr t) ∧
        (t = "notebooklm" ∨ t = "jsonl" ∨ t = "urls")) ∧
  b !! "mark_exported" = Some (JBool true) ∧
  b !! "limit" = Some (JNum 100) ∧
  b !! "unexported_only" = Some (JBool (unexportedOnly s)) ∧
  createExport_resolved (JObj data)
    = ToastSuccess ("Exported " ++ js_to_string (js_prop data "articles_count")
                    ++ " articles").
Proof.
  intros s b. subst b. unfold createExport_body.
  split_and!; try reflexivity.
  exists (exportType s). split; [apply lookup_insert_eq|].
  assert (H : exportType s ∈ type_items).
  { apply run_exportType. simpl. set_solver. }
  unfold type_items in H. set_solver.
Qed.

Lemma string_append_nil (q : string) : "" ++ q = q.
Proof. reflexivity. Qed.

Lemma string_append_cons c (p q : string) : String c p ++ q = String c (p ++ q).
Proof. reflexivity. Qed.

Lemma string_length_append (p q : string) :
  String.length (p ++ q) = (String.length p + String.length q)%nat.
Proof.
  induction p as [|c p IH]; [done|].
  rewrite string_append_cons. simpl. by rewrite IH.
Qed.

Lemma string_append_assoc (p q r : string) : (p ++ q) ++ r = p ++ (q ++ r).
Proof.
  induction p as [|c p IH]; [done|].
  rewrite !string_append_cons. by rewrite IH.
Qed.

Lemma ends_with_refl suf : ends_with suf suf = true.
Proof. destruct suf; simpl; [done|]. by rewrite Ascii.eqb_refl, String.eqb_refl. Qed.

Lemma ends_with_append suf p : ends_with suf (p ++ suf) = true.
Proof.
  induction p as [|c p IH]; [apply ends_with_refl|].
  rewrite string_append_cons. simpl. rewrite IH. apply orb_true_r.
Qed.

(** Only the tail decides, once it is at least as long as the suffix. *)
Lemma ends_with_tail suf p q :
  (String.length suf <= String.length q)%nat ->
  ends_with suf (p ++ q) = ends_with suf q.
Proof.
  intros Hlen. induction p as [|c p IH]; [done|].
  change (ends_with suf (String c p ++ q))
    with (String.eqb (String c (p ++ q)) suf || ends_with suf (p ++ q)).
  rewrite IH. replace (String.eqb (String c (p ++ q)) suf) with false; [done|].
  symmetry. apply String.eqb_neq. intros Heq.
  apply (f_equal String.length) in Heq. simpl in Heq.
  rewrite string_length_append in Heq. lia.
Qed.

Lemma numeric_string_of_uint d :
  all_chars numeric_char (NilEmpty.string_of_uint d) = true.
Proof. induction d; simpl; try done; exact IHd. Qed.

Lemma numeric_string_of_uint0 d :
  all_chars numeric_char (NilZero.string_of_uint d) = true.
Proof. destruct d; try reflexivity; apply (numeric_string_of_uint (_ _)). Qed.

Lemma Z_to_string_numeric n : all_chars numeric_char (Z_to_string n) = true.
Proof.
  unfold Z_to_string, NilZero.string_of_int.
  destruct (Z.to_int n) as [d|d]; [apply numeric_string_of_uint0|].
  change (numeric_char "-" && all_chars numeric_char (NilZero.string_of_uint d) = true).
  by rewrite numeric_string_of_uint0.
Qed.

Lemma ends_with_short suf s :
  (String.length s < String.length suf)%nat -> ends_with suf s = false.
Proof.
  induction s as [|c s IH]; intros Hlen; cbn [ends_with].
  - rewrite orb_false_r. apply String.eqb_neq. intros <-. simpl in Hlen. lia.
  - rewrite IH by (simpl in Hlen; lia). rewrite orb_false_r.
    apply String.eqb_neq. intros <-. lia.
Qed.

(** A numeric string followed by " B" does not end in " KB" or " MB". *)
Lemma ends_with_unit_after_number (u : ascii) (x : string) :
  numeric_char u = false -> all_chars numeric_char x = true ->
  ends_with (String " " (String u "B")) (x ++ " B") = false.
Proof.
  intros Hu. induction x as [|c x IH]; intros Hx.
  - rewrite string_append_nil. apply ends_with_short. simpl. lia.
  - cbn [all_chars] in Hx. apply andb_true_iff in Hx as [Hc Hx].
    rewrite string_append_cons. cbn [ends_with].
    rewrite (IH Hx), orb_false_r.
    apply String.eqb_neq. intros Heq. injection Heq as -> _.
    vm_compute in Hc. discriminate.
Qed.

Lemma digit_string d :
  0 <= d < 10 -> Z_to_string d ∈ ["0"; "1"; "2"; "3"; "4"; "5"; "6"; "7"; "8"; "9"].
Proof.
  intros Hd.
  assert (d = 0 ∨ d = 1 ∨ d = 2 ∨ d = 3 ∨ d = 4 ∨ d = 5 ∨ d = 6 ∨ d = 7
          ∨ d = 8 ∨ d = 9) as H by lia.
  repeat destruct H as [->|H]; [..|subst d]; vm_compute; set_solver.
Qed.

(** A one-decimal rendering followed by a two-letter unit ends in that
    unit and in no other. *)
Lemma ends_with_after_toFixed1 num den (u suf : string) :
  u ∈ [" KB"; " MB"] -> suf ∈ [" B"; " KB"; " MB"] ->
  ends_with suf (toFixed1 num den ++ u) = bool_decide (suf = u).
Proof.
  intros Hunit Hsuf. unfold toFixed1.
  set (n := (2 * 10 * Z.abs num + den) / (2 * den)).
  set (sign := if Z.ltb num 0 then "-" else "").
  pose proof (digit_string (n mod 10) (Z.mod_pos_bound n 10 eq_refl)) as Hd.
  rewrite <- !string_append_assoc.
  rewrite (string_append_assoc _ (Z_to_string (n mod 10)) u).
  rewrite ends_with_tail.
  - set_unfold in Hunit. set_unfold in Hsuf. set_unfold in Hd.
    destruct Hunit as [->|[->|[]]]; destruct Hsuf as [->|[->|[->|[]]]];
      repeat destruct Hd as [->|Hd]; first [reflexivity | destruct Hd].
  - rewrite string_length_append.
    set_unfold in Hunit. set_unfold in Hsuf.
    destruct Hunit as [->|[->|[]]]; destruct Hsuf as [->|[->|[->|[]]]];
      simpl; lia.
Qed.

(** C10: [formatFileSize] picks the unit by the size alone.  The result
    ends in " B" exactly when bytes < 1024 and is then the count itself;
    it ends in " KB" exactly when 1024 <= bytes < 1048576 and in " MB"
    exactly when 1048576 <= bytes, and is then [n/10 . n mod 10] for the
    integer [n] of tenths nearest to the quotient (the larger one on a
    tie). *)
Theorem formatFileSize_partition (bytes : Z) :
  let r := formatFileSize bytes in
  (bytes < 1024 ↔ ends_with " B" r = true) ∧
  (1024 <= bytes < 1048576 ↔ ends_with " KB" r = true) ∧
  (1048576 <= bytes ↔ ends_with " MB" r = true) ∧
  (bytes < 1024 -> r = Z_to_string bytes ++ " B") ∧
  (1024 <= bytes < 1048576 ->
     ∃ n, r = Z_to_string (n / 10) ++ "." ++ Z_to_string (n mod 10) ++ " KB" ∧
          0 <= n mod 10 < 10 ∧ -512 < 1024 * n - 10 * bytes <= 512) ∧
  (1048576 <= bytes ->
     ∃ n, r = Z_to_string (n / 10) ++ "." ++ Z_to_string (n mod 10) ++ " MB" ∧
          0 <= n mod 10 < 10 ∧ -524288 < 1048576 * n - 10 * bytes <= 524288).
Proof.
  intros r. subst r. unfold formatFileSize.
  change (1024 * 1024) with 1048576.
  destruct (Z.ltb_spec bytes 1024) as [Hb|Hb];
    [|destruct (Z.ltb_spec bytes 1048576) as [Hk|Hk]].
  - pose proof (Z_to_string_numeric bytes) as Hnum.
    rewrite (ends_with_append " B").
    rewrite (ends_with_unit_after_number "K" _ eq_refl Hnum).
    rewrite (ends_with_unit_after_number "M" _ eq_refl Hnum).
    split_and!; try (split; intros; (done || lia)); intros; (done || lia).
  - rewrite !ends_with_after_toFixed1 by set_solver.
    split_and!; try (split; intros; (done || lia)); try (intros; lia).
    intros _. exists ((2 * 10 * Z.abs bytes + 1024) / (2 * 1024)).
    split; [|split].
    + unfold toFixed1. destruct (Z.ltb_spec bytes 0); [lia|].
      by rewrite string_append_nil, !string_append_assoc.
    + apply Z.mod_pos_bound. lia.
    + rewrite Z.abs_eq by lia.
      pose proof (Z.div_mod (2 * 10 * bytes + 1024) (2 * 1024) ltac:(lia)).
      pose proof (Z.mod_pos_bound (2 * 10 * bytes + 1024) (2 * 1024) ltac:(lia)).
      lia.
  - rewrite !ends_with_after_toFixed1 by set_solver.
    split_and!; try (split; intros; (done || lia)); try (intros; lia).
    intros _. exists ((2 * 10 * Z.abs bytes + 1048576) / (2 * 1048576)).
    split; [|split].
    + unfold toFixed1. destruct (Z.ltb_spec bytes 0); [lia|].
      by rewrite string_append_nil, !string_append_assoc.
    + apply Z.mod_pos_bound. lia.
    + rewrite Z.abs_eq by lia.
      pose proof (Z.div_mod (2 * 10 * bytes + 1048576) (2 * 1048576) ltac:(lia)).
      pose proof (Z.mod_pos_bound (2 * 10 * bytes + 1048576) (2 * 1048576) ltac:(lia)).
      lia.
Qed.

End ExportsFacts.

(** ** Dashboard: rendering with missing fields *)

Section DashboardFacts.
Import Dashboard.

Variable toLocaleTimeString : jsval -> string.

Lemma Object_entries_or v :
  ∃ rows, Object_entries (js_or v (JObj ∅)) = Ok rows ∧
          (v = JUndefined -> rows = []).
Proof.
  destruct v as [| |[]|n|s|l|m]; unfold js_or; simpl; try (eexists; split; [done|done]).
  - destruct (Z.eqb n 0); simpl; eexists; (split; [done|done]).
  - destruct (String.eqb s ""); simpl; eexists; (split; [done|done]).
Qed.

(** C8: for every stats object, the initial [{}] included, rendering the
    Dashboard returns a view (no property read or conversion throws);
    each counter whose field is absent shows 0, an absent category
    breakdown shows no row and the note, an absent next-collection time
    shows nothing and an absent scheduler status reads "Stopped". *)
Theorem Dashboard_render_total (m : gmap string jsval) (collecting : bool) :
  (∃ v, render toLocaleTimeString (JObj m) collecting = Ok v ∧
        (m !! "total_articles" = None -> total_articles v = JNum 0) ∧
        (m !! "active_sources" = None -> active_sources v = JNum 0) ∧
        (m !! "exported_articles" = None -> exported_articles v = JNum 0) ∧
        (m !! "total_summaries" = None -> total_summaries v = JNum 0) ∧
        (m !! "by_category" = None ->
           category_rows v = [] ∧ no_categories_note v = true) ∧
        (m !! "next_collection" = None -> next_collection v = Nothing) ∧
        (m !! "scheduler_running" = None ->
           scheduler_text v = "Scheduler: Stopped" ∧
           scheduler_class v = "scheduler-status stopped")) ∧
  render toLocaleTimeString initial_stats collecting
    = Ok {| total_articles := JNum 0; active_sources := JNum 0;
            exported_articles := JNum 0; total_summaries := JNum 0;
            collect_disabled := collecting;
            collect_label :=
              if collecting then "Collecting..." else "Collect News Now";
            scheduler_class := "scheduler-status stopped";
            scheduler_text := "Scheduler: Stopped";
            next_collection := Nothing;
            category_rows := []; no_categories_note := true |}.
Proof.
  split; [|reflexivity].
  unfold render. cbn [js_get mbind result_bind js_bind].
  destruct (Object_entries_or (js_prop m "by_category")) as (rows & Hrows & Hnil).
  unfold Object_keys. rewrite Hrows. cbn [mbind result_bind js_bind].
  eexists. split; [reflexivity|]. cbn.
  unfold js_prop in *.
  split_and!; intros Hm; rewrite ?Hm; cbn; try reflexivity.
  - rewrite Hm in Hnil. cbn in Hnil. rewrite Hnil by done. done.
  - split; reflexivity.
Qed.

End DashboardFacts.

(** ** Ingestion: one row per url *)

Section CoreFacts.
Import Core.

Lemma find_by_url_Some url store a :
  find_by_url url store = Some a -> a ∈ store ∧ a_url a = url.
Proof.
  intros H. apply List.find_some in H as [Hin Heq].
  split; [by apply list_elem_of_In | by apply String.eqb_eq].
Qed.

Lemma find_by_url_None url store :
  find_by_url url store = None -> ∀ a, a ∈ store -> a_url a ≠ url.
Proof.
  intros H a Hin%list_elem_of_In.
  apply String.eqb_neq, (List.find_none _ _ H a Hin).
Qed.

Lemma find_by_url_app_new url store a :
  find_by_url url store = None -> a_url a = url ->
  find_by_url url (store ++ [a]) = Some a.
Proof.
  intros Hnone Ha. unfold find_by_url in *.
  induction store as [|b l IH]; simpl in *.
  - rewrite Ha, String.eqb_refl. done.
  - destruct (String.eqb (a_url b) url); [done | by apply IH].
Qed.

Lemma rows_with_url_absent url store :
  (∀ a, a ∈ store -> a_url a ≠ url) -> rows_with_url url store = 0%nat.
Proof.
  unfold rows_with_url. induction store as [|b l IH]; intros H; [done|].
  rewrite filter_cons_False by (apply H; left).
  apply IH. intros a Ha. apply H. by right.
Qed.

Lemma rows_with_url_unique store a :
  NoDup (a_url <$> store) -> a ∈ store -> rows_with_url (a_url a) store = 1%nat.
Proof.
  unfold rows_with_url. induction store as [|b l IH]; intros Hnd Hin.
  - by apply elem_of_nil in Hin.
  - rewrite fmap_cons in Hnd. apply NoDup_cons in Hnd as [Hb Hl].
    apply elem_of_cons in Hin as [->|Hin].
    + rewrite filter_cons_True by done. simpl. f_equal.
      apply rows_with_url_absent. intros c Hc Heq. apply Hb.
      rewrite <- Heq. by apply list_elem_of_fmap_2.
    + rewrite filter_cons_False; [by apply IH|].
      intros Heq. apply Hb. rewrite Heq. by apply list_elem_of_fmap_2.
Qed.

Lemma ingest_existing item source_id now store a :
  find_by_url (n_url item) store = Some a ->
  ingest item source_id now store
    = (store, {| created := false; article_id := a_id a |}).
Proof. intros H. unfold ingest. by rewrite H. Qed.

Lemma ingest_new item source_id now store :
  find_by_url (n_url item) store = None ->
  ingest item source_id now store
    = ((store ++ [new_article (next_id store) item source_id now])%list,
       {| created := true; article_id := next_id store |}).
Proof. intros H. unfold ingest. by rewrite H. Qed.

Lemma ingest_unique item source_id now store :
  NoDup (a_url <$> store) ->
  NoDup (a_url <$> (ingest item source_id now store).1).
Proof.
  intros Hnd. unfold ingest.
  destruct (find_by_url (n_url item) store) as [a|] eqn:Hfind; [done|].
  simpl. rewrite fmap_app. apply NoDup_app. split_and!; [done| |apply NoDup_singleton].
  intros u Hu Hu'. apply list_elem_of_fmap in Hu as (c & -> & Hc).
  simpl in Hu'. apply list_elem_of_singleton in Hu'.
  by apply (find_by_url_None _ _ Hfind c Hc).
Qed.

(** C1: on a store whose urls are unique, ingesting the same normalized
    item twice, from whichever sources and at whichever times, leaves
    exactly one row with that url: the second call changes nothing and
    returns created = false with the id of the existing row, the id the
    first call returned; the urls stay unique. *)
Theorem ingest_twice_one_article (store : list Article) (item : NormalizedItem)
    (source1 source2 now1 now2 : Z) :
  NoDup (a_url <$> store) ->
  let r1 := ingest item source1 now1 store in
  let r2 := ingest item source2 now2 r1.1 in
  r2.1 = r1.1 ∧
  created r2.2 = false ∧
  article_id r2.2 = article_id r1.2 ∧
  (∃ a, a ∈ r1.1 ∧ a_url a = n_url item ∧ article_id r2.2 = a_id a) ∧
  rows_with_url (n_url item) r2.1 = 1%nat ∧
  NoDup (a_url <$> r2.1).
Proof.
  intros Hnd r1 r2. subst r1 r2.
  destruct (find_by_url (n_url item) store) as [a|] eqn:Hfind.
  - destruct (find_by_url_Some _ _ _ Hfind) as [Hin Hurl].
    rewrite (ingest_existing item source1 now1 store a Hfind). cbn [fst snd].
    rewrite (ingest_existing item source2 now2 store a Hfind).
    cbn [fst snd created article_id].
    split_and!; try done.
    + by exists a.
    + rewrite <- Hurl. by apply rows_with_url_unique.
  - set (new := new_article (next_id store) item source1 now1).
    assert (Hnew : find_by_url (n_url item) (store ++ [new]) = Some new)
      by (by apply find_by_url_app_new).
    rewrite (ingest_new item source1 now1 store Hfind). fold new.
    cbn [fst snd]. rewrite (ingest_existing _ _ _ _ new Hnew).
    cbn [fst snd created article_id].
    split_and!; try done.
    + exists new. split_and!; try done. apply elem_of_app. right. by left.
    + unfold rows_with_url. rewrite filter_app, length_app.
      fold (rows_with_url (n_url item) store).
      rewrite (rows_with_url_absent _ _ (find_by_url_None _ _ Hfind)).
      rewrite filter_cons_True by done. done.
    + pose proof (ingest_unique item source1 now1 store Hnd) as H.
      by rewrite (ingest_new item source1 now1 store Hfind) in H.
Qed.

Lemma ingest_twice_one_article_witness :
  NoDup (a_url <$> [sample_row]) ∧
  rows_with_url (n_url sample_item)
    (ingest sample_item 2 20 (ingest sample_item 1 10 [sample_row]).1).1 = 1%nat ∧
  created (ingest sample_item 2 20 (ingest sample_item 1 10 [sample_row]).1).2 = false.
Proof.
  assert (Hnd : NoDup (a_url <$> [sample_row])) by apply NoDup_singleton.
  split; [exact Hnd|].
  pose proof (ingest_twice_one_article [sample_row] sample_item 1 2 10 20 Hnd) as H.
  cbv zeta in H. destruct H as (_ & Hc & _ & _ & Hrows & _).
  split; [exact Hrows | exact Hc].
Defined.

(** ** Export: marking is all-or-nothing and never resets *)

Lemma select_for_export_subset uo limit store a :
  a ∈ select_for_export uo limit store -> a ∈ store.
Proof.
  unfold select_for_export. intros H%subseteq_take.
  rewrite merge_sort_Permutation in H. by apply list_elem_of_filter in H as [_ H].
Qed.

Lemma mark_exported_flag_kept ids store :
  Forall2 flag_kept store (mark_exported ids store).
Proof.
  unfold mark_exported. induction store as [|b l IH]; [constructor|].
  rewrite fmap_cons. constructor; [|done].
  unfold flag_kept. destruct (bool_decide (a_id b ∈ ids)); simpl; done.
Qed.

Lemma mark_exported_selected ids store a :
  a ∈ store -> a_id a ∈ ids -> set_exported a ∈ mark_exported ids store.
Proof.
  intros Hin Hid. unfold mark_exported.
  apply (list_elem_of_fmap_2' _ _ a); [done|].
  by rewrite bool_decide_eq_true_2.
Qed.

Lemma mark_exported_flagged ids store a' :
  a' ∈ mark_exported ids store -> a_id a' ∈ ids -> a_exported a' = true.
Proof.
  unfold mark_exported. intros (a & -> & Ha)%list_elem_of_fmap Hid.
  destruct (bool_decide (a_id a ∈ ids)) eqn:Hdec; [done|].
  apply bool_decide_eq_false in Hdec. done.
Qed.

Lemma flag_kept_refl store : Forall2 flag_kept store store.
Proof. induction store; constructor; [by split | done]. Qed.

Section PipelineFacts.

Variable render_export : export_type -> list Article -> string.
Variable write_succeeds : string -> string -> bool.
Variable classify : Article -> option string.

(** C6: modelled on section 4.5.  With mark_exported = true, when the
    write of the export file fails the whole state is as before, so no
    article is marked; when it succeeds every selected article is in the
    store with its flag set.  Whatever the arguments and the outcome, a
    flag that was set stays set; the Categorization step leaves all flags
    as they are, and ingestion leaves the existing rows as they are. *)
Theorem export_marks_all_or_nothing (ty : export_type) (unexported_only mark : bool)
    (limit : nat) (now : Z) (st : state) (item : NormalizedItem) (source_id : Z) :
  let sel := select_for_export unexported_only limit (c_articles st) in
  let name := export_filename ty now in
  let marked := export render_export write_succeeds ty unexported_only true limit now st in
  (write_succeeds name (render_export ty sel) = false -> marked.2 = st) ∧
  (sel ≠ [] -> write_succeeds name (render_export ty sel) = true ->
     marked.1 = Exported (length sel) name ∧
     (∀ a, a ∈ sel -> set_exported a ∈ c_articles marked.2) ∧
     (∀ a', a' ∈ c_articles marked.2 -> a_id a' ∈ a_id <$> sel ->
            a_exported a' = true)) ∧
  Forall2 flag_kept (c_articles st)
    (c_articles (export render_export write_succeeds ty unexported_only mark
                   limit now st).2) ∧
  a_exported <$> categorize classify (c_articles st) = a_exported <$> c_articles st ∧
  (∃ extra, (ingest item source_id now (c_articles st)).1
            = (c_articles st ++ extra)%list).
Proof.
  intros sel name marked. subst marked. unfold export. fold sel. fold name.
  split_and!.
  - intros Hw. destruct sel; [done|]. by rewrite Hw.
  - intros Hsel Hw. destruct sel as [|a0 l] eqn:Hs; [done|]. rewrite Hw.
    cbn [fst snd c_articles]. split_and!; [done| |].
    + intros a Ha. apply mark_exported_selected.
      * apply (select_for_export_subset unexported_only limit). fold sel.
        by rewrite Hs.
      * by apply list_elem_of_fmap_2.
    + intros a' Ha' Hid. by eapply mark_exported_flagged.
  - destruct sel; [apply flag_kept_refl|].
    destruct (write_succeeds _ _); [|apply flag_kept_refl].
    cbn [snd c_articles]. destruct mark; [apply mark_exported_flag_kept|apply flag_kept_refl].
  - unfold categorize. induction (c_articles st) as [|b l IH]; [done|].
    rewrite !fmap_cons, IH. f_equal. by destruct (a_category b).
  - unfold ingest. destruct (find_by_url _ _); simpl; [exists []|eexists; done].
    by rewrite app_nil_r.
Qed.

End PipelineFacts.

Lemma export_marks_all_or_nothing_witness :
  (export (fun _ _ => "") (fun _ _ => false) Urls false true 10 1700000001
          sample_state).2 = sample_state ∧
  (∀ a, a ∈ select_for_export false 10 (c_articles sample_state) ->
        set_exported a ∈
          c_articles (export (fun _ _ => "") (fun _ _ => true) Urls false true 10
                             1700000001 sample_state).2).
Proof.
  split.
  - apply (export_marks_all_or_nothing (fun _ _ => "") (fun _ _ => false)
             (fun _ => None) Urls false true 10 1700000001 sample_state
             sample_item 1).
    reflexivity.
  - apply (export_marks_all_or_nothing (fun _ _ => "") (fun _ _ => true)
             (fun _ => None) Urls false true 10 1700000001 sample_state
             sample_item 1); [|reflexivity].
    vm_compute. discriminate.
Defined.

End CoreFacts.

(** * Further properties of the client *)

(** ** Articles: pages, the empty reply, the category parameter *)

Section ArticlesMoreFacts.
Import Articles ArticlesMore.

Lemma page_count_ceiling t :
  0 <= t ->
  1 <= page_count t ∧ (page_count t - 1) * 20 < Z.max t 1 <= page_count t * 20.
Proof.
  intros Ht. unfold page_count, limit.
  pose proof (Z.div_mod (- t) 20 ltac:(lia)) as Hdm.
  pose proof (Z.mod_pos_bound (- t) 20 ltac:(lia)) as Hb.
  destruct (Z.eqb_spec (- (- t / 20)) 0) as [H0|H0]; lia.
Qed.

(** X1: for a non-negative total the page count shown is the least number
    of 20-article pages that hold the total (1 for an empty result), and
    the next-page button is disabled exactly on the last page or beyond
    it. *)
Theorem next_disabled_iff_last_page (s : state) :
  0 <= total s -> 0 <= page s ->
  1 <= pages_of (render_pagination s) ∧
  (pages_of (render_pagination s) - 1) * 20 < Z.max (total s) 1
    <= pages_of (render_pagination s) * 20 ∧
  (next_disabled (render_pagination s) = true ↔
   pages_of (render_pagination s) <= page_shown (render_pagination s)).
Proof.
  intros Ht Hp. cbn [render_pagination pages_of page_shown next_disabled].
  destruct (page_count_ceiling (total s) Ht) as (H1 & H2 & H3).
  split; [exact H1|]. split; [exact (conj H2 H3)|].
  unfold limit. rewrite Z.geb_leb. split.
  - intros H%Z.leb_le. nia.
  - intros H. apply Z.leb_le. nia.
Qed.

Lemma next_disabled_iff_last_page_witness :
  next_disabled (render_pagination
    {| articles := []; loading := false; search := ""; category := "";
       categories := []; page := 2; total := 41 |}) = true.
Proof.
  destruct (next_disabled_iff_last_page
    {| articles := []; loading := false; search := ""; category := "";
       categories := []; page := 2; total := 41 |}) as (_ & _ & H);
    [simpl; lia | simpl; lia |].
  apply H. vm_compute. discriminate.
Defined.

(** X2: the two pagination buttons never lead off the pages: from a page
    within 1..page count, a click on either button (which does nothing
    when the button is disabled or not shown) ends on a page within
    1..page count, the total being as it was. *)
Theorem paging_stays_within_pages (s : state) :
  0 <= page s -> page s + 1 <= page_count (total s) ->
  (0 <= page (click_next s) ∧
   page (click_next s) + 1 <= page_count (total (click_next s)) ∧
   total (click_next s) = total s) ∧
  (0 <= page (click_prev s) ∧
   page (click_prev s) + 1 <= page_count (total (click_prev s)) ∧
   total (click_prev s) = total s).
Proof.
  intros Hp Hc. unfold click_next, click_prev.
  destruct (pagination_shown s); cbn [andb]; [|done].
  cbn [render_pagination next_disabled prev_disabled]. split.
  - unfold limit. rewrite Z.geb_leb.
    destruct (Z.leb_spec (total s) ((page s + 1) * 20)) as [Hle|Hlt];
      cbn [negb]; [done|]. cbn [step page total].
    assert (Ht : 0 <= total s) by lia.
    destruct (page_count_ceiling (total s) Ht) as (H1 & H2 & H3).
    split_and!; [lia | nia | done].
  - destruct (Z.eqb_spec (page s) 0) as [H0|H0]; cbn [negb]; [done|].
    cbn [step page total]. split_and!; [lia | lia | done].
Qed.

Lemma paging_stays_within_pages_witness :
  page (click_next
    {| articles := [∅]; loading := false; search := ""; category := "";
       categories := []; page := 1; total := 41 |}) + 1 <= page_count 41.
Proof.
  apply (paging_stays_within_pages
    {| articles := [∅]; loading := false; search := ""; category := "";
       categories := []; page := 1; total := 41 |}); vm_compute; discriminate.
Defined.

(** X3: a reply with no articles shows the empty state, whatever the page
    index; the index stays as it was and, the pagination being absent,
    neither button can change it: only a change of the search text or of
    the category puts it back to 0. *)
Theorem empty_reply_hides_pagination (s : state) (r : response) (v : string) :
  r_articles r = [] ->
  let s' := step (FetchOk r) s in
  render s' = EmptyState ∧ page s' = page s ∧
  click_prev s' = s' ∧ click_next s' = s' ∧
  page (step (ChangeSearch v) s') = 0 ∧ page (step (SelectCategory v) s') = 0.
Proof.
  intros Hr s'. subst s'. unfold render, click_prev, click_next, pagination_shown.
  cbn [step loading articles page]. rewrite Hr. done.
Qed.

Lemma empty_reply_hides_pagination_witness :
  page (step (FetchOk {| r_articles := []; r_total := 5 |})
             (run [ClickNext; ClickNext] init)) = 2.
Proof.
  transitivity (page (run [ClickNext; ClickNext] init)); [|reflexivity].
  apply (empty_reply_hides_pagination (run [ClickNext; ClickNext] init)
           {| r_articles := []; r_total := 5 |} ""). reflexivity.
Defined.

Lemma step_category_not_all ev s : category s ≠ "all" -> category (step ev s) ≠ "all".
Proof.
  intros Hs. destruct ev; cbn [step category]; try done.
  destruct (String.eqb_spec val "all"); done.
Qed.

Lemma run_category_not_all evs s : category s ≠ "all" -> category (run evs s) ≠ "all".
Proof.
  revert s. induction evs as [|ev evs IH]; intros s Hs; simpl; [done|].
  apply IH, step_category_not_all, Hs.
Qed.

(** X4: the article list never asks for the category "all": after every
    sequence of events the category held is not "all" (the handler turns
    that pick into the empty category) and no request carries
    category=all. *)
Theorem article_list_never_sends_all (evs : list event) :
  let s := run evs init in
  category s ≠ "all" ∧
  (("category", "all") ∉ req_params (fetchArticles_request s)) ∧
  (∀ a, category (step (SelectCategory "all") a) = "" ∧
        (∀ k v, (k, v) ∈ req_params (fetchArticles_request
                                       (step (SelectCategory "all") a)) ->
                k ≠ "category")).
Proof.
  intros s.
  assert (Hs : category s ≠ "all") by (apply run_category_not_all; done).
  split_and!; [done| |].
  - unfold fetchArticles_request. cbn [req_params].
    rewrite !append_if_elem, !elem_of_cons, elem_of_nil. naive_solver.
  - intros a. split; [done|]. intros k v.
    unfold fetchArticles_request. cbn [req_params step search category].
    rewrite !append_if_elem, !elem_of_cons, elem_of_nil. naive_solver.
Qed.

(** ** The category badge *)

Lemma toLowerCase_app p q : toLowerCase (p ++ q) = toLowerCase p ++ toLowerCase q.
Proof.
  induction p as [|c p IH]; [done|].
  rewrite string_append_cons. cbn [toLowerCase].
  by rewrite string_append_cons, IH.
Qed.

Lemma starts_with_app w q : starts_with w (w ++ q) = true.
Proof.
  induction w as [|c w IH]; [done|].
  rewrite string_append_cons. cbn [starts_with].
  by rewrite Ascii.eqb_refl, IH.
Qed.

Lemma includes_app_r p s sub : includes s sub = true -> includes (p ++ s) sub = true.
Proof.
  intros Hs. induction p as [|c p IH]; [exact Hs|].
  rewrite string_append_cons. cbn [includes]. rewrite IH. apply orb_true_r.
Qed.

Lemma includes_starts_with s sub : starts_with sub s = true -> includes s sub = true.
Proof. intros H. destruct s; cbn [includes]; by rewrite H. Qed.

Lemma includes_middle p w q : includes (p ++ w ++ q) w = true.
Proof. apply includes_app_r, includes_starts_with, starts_with_app. Qed.

(** X5: [getCategoryBadgeClass] returns the default class for every falsy
    value and one of the five badge classes for every string; on a truthy
    value that is not a string it throws. *)
Theorem getCategoryBadgeClass_range (cat : jsval) :
  (truthy cat = false -> getCategoryBadgeClass cat = Ok "badge-default") ∧
  (∀ c, cat = JStr c ->
        ∃ cls, getCategoryBadgeClass cat = Ok cls ∧ cls ∈ badge_classes) ∧
  (truthy cat = true -> (∀ c, cat ≠ JStr c) ->
   getCategoryBadgeClass cat = TypeError "cat.toLowerCase is not a function").
Proof.
  unfold getCategoryBadgeClass. split_and!.
  - by intros ->.
  - intros c ->. destruct (truthy (JStr c)); cbn [negb];
      [|eexists; split; [done | set_solver]].
    repeat match goal with
           | |- context [if ?b then _ else _] => destruct b
           end; eexists; (split; [done | unfold badge_classes; set_solver]).
  - intros -> Hns. cbn [negb]. destruct cat; try done. by destruct (Hns s).
Qed.

(** X6: the keywords are looked for anywhere in the category and in any
    letter case, and "ai" and "ml" come first: an ASCII category with a
    spelling of "ai" or "ml" somewhere inside gets the class badge-ai,
    whatever stands around it. *)
Theorem getCategoryBadgeClass_ai_anywhere (p w q : string) :
  is_ascii (p ++ w ++ q) = true ->
  toLowerCase w = "ai" ∨ toLowerCase w = "ml" ->
  getCategoryBadgeClass (JStr (p ++ w ++ q)) = Ok "badge-ai".
Proof.
  intros _ Hw. unfold getCategoryBadgeClass.
  assert (Hne : truthy (JStr (p ++ w ++ q)) = true).
  { cbn [truthy]. destruct (String.eqb_spec (p ++ w ++ q) "") as [He|]; [|done].
    apply (f_equal String.length) in He.
    rewrite !string_length_append in He.
    destruct w; [by destruct Hw | simpl in He; lia]. }
  rewrite Hne. cbn [negb]. rewrite !toLowerCase_app.
  destruct Hw as [-> | ->].
  - by rewrite (includes_middle (toLowerCase p) "ai" (toLowerCase q)).
  - rewrite (includes_middle (toLowerCase p) "ml" (toLowerCase q)).
    by rewrite orb_true_r.
Qed.

Lemma getCategoryBadgeClass_ai_anywhere_witness :
  getCategoryBadgeClass (JStr ("Ret" ++ "AI" ++ "l & Security")) = Ok "badge-ai".
Proof.
  apply (getCategoryBadgeClass_ai_anywhere "Ret" "AI" "l & Security");
    [reflexivity | left; reflexivity].
Defined.

End ArticlesMoreFacts.

(** ** Sources: what the edit form sends, the icon of a kind *)

Section SourcesMoreFacts.
Import Sources SourcesMore.

Lemma sources_run_snoc evs ev s : run (evs ++ [ev]) s = step ev (run evs s).
Proof. unfold run. by rewrite fold_left_app. Qed.

Lemma last_write_snoc k evs ev :
  last_write k (evs ++ [ev]) =
  match field_write ev with
  | Some (k', v) => if String.eqb k' k then Some v else last_write k evs
  | None => last_write k evs
  end.
Proof.
  unfold last_write. rewrite omap_app, last_app. cbn [omap list_omap].
  destruct (field_write ev) as [[k' v]|]; [|done].
  destruct (String.eqb k' k); done.
Qed.

Lemma step_field_write ev s k :
  keeps_form ev = true ->
  editingSource (step ev s) = editingSource s ∧
  formData (step ev s) !! k =
  match field_write ev with
  | Some (k', v) => if String.eqb k' k then Some v else formData s !! k
  | None => formData s !! k
  end.
Proof.
  intros Hev. destruct ev; try done; cbn [step field_write].
  - split; [done|]. cbn [set_field formData]. rewrite lookup_insert.
    destruct (String.eqb_spec "name" k); case_decide; done.
  - unfold select_pick. destruct (type_items !! i); [|done].
    split; [done|]. cbn [set_field formData]. rewrite lookup_insert.
    destruct (String.eqb_spec "type" k); case_decide; done.
  - split; [done|]. cbn [set_field formData]. rewrite lookup_insert.
    destruct (String.eqb_spec "url" k); case_decide; done.
  - split; [done|]. cbn [set_field formData]. rewrite lookup_insert.
    destruct (String.eqb_spec "enabled" k); case_decide; done.
Qed.

(** X7: once a source is opened for editing, edits of the form never
    retarget the request and never touch another field: whatever else
    happens short of opening another form or a completed submit,
    [handleSubmit] issues PUT /sources/{id of that source}, and each of
    name, type, url and enabled in its body is the value last written to
    that field, or the source's own value if the field was never
    written. *)
Theorem edit_form_last_write_wins (s : state) (source : gmap string jsval)
    (evs : list event) (k : string) :
  forallb keeps_form evs = true ->
  k ∈ ["name"; "type"; "url"; "enabled"] ->
  let s' := run evs (step (ClickEdit source) s) in
  req_method (handleSubmit_request s') = PUT ∧
  req_path (handleSubmit_request s')
    = "/sources/" ++ js_to_string (js_prop source "id") ∧
  req_body (handleSubmit_request s') = Some (JObj (formData s')) ∧
  formData s' !! k = Some (default (js_prop source k) (last_write k evs)).
Proof.
  intros Hevs Hk s'. subst s'.
  assert (H : editingSource (run evs (step (ClickEdit source) s)) = Some source ∧
              formData (run evs (step (ClickEdit source) s)) !! k
              = Some (default (js_prop source k) (last_write k evs))).
  { induction evs as [|ev evs IH] using rev_ind.
    - split; [done|]. cbn [run fold_left step formData last_write omap last default].
      set_unfold in Hk. destruct Hk as [->|[->|[->|[->|[]]]]];
        by rewrite ?lookup_insert_eq, ?(lookup_insert_ne _ _ _ _) by done.
    - rewrite forallb_app in Hevs. apply andb_true_iff in Hevs as [Hevs Hev].
      cbn [forallb] in Hev. rewrite andb_true_r in Hev.
      destruct (IH Hevs) as [IH1 IH2].
      rewrite sources_run_snoc, last_write_snoc.
      destruct (step_field_write ev (run evs (step (ClickEdit source) s)) k Hev)
        as [-> ->].
      split; [done|].
      destruct (field_write ev) as [[k' v]|]; [|done].
      destruct (String.eqb k' k); done. }
  destruct H as [He Hf]. unfold handleSubmit_request. rewrite He.
  cbn [req_method req_path req_body]. done.
Qed.

Lemma edit_form_last_write_wins_witness :
  formData (run [ChangeName "HN"; SwitchEnabled false; ChangeName "Hacker"]
                (step (ClickEdit hn_source) init)) !! "name"
  = Some (JStr "Hacker").
Proof.
  apply (edit_form_last_write_wins init hn_source
           [ChangeName "HN"; SwitchEnabled false; ChangeName "Hacker"] "name");
    [reflexivity | set_solver].
Defined.

(** X8: the kinds the type [Select] offers are exactly the kinds with an
    icon of their own, one icon per kind; every other kind gets the
    globe. *)
Theorem getSourceIcon_listed_kinds (t t' : string) :
  (getSourceIcon t ≠ Globe ↔ t ∈ type_items) ∧
  (t ∈ type_items -> getSourceIcon t' = getSourceIcon t -> t' = t).
Proof.
  unfold getSourceIcon, type_items. split.
  - destruct (String.eqb_spec t "rss"); [set_solver|].
    destruct (String.eqb_spec t "reddit"); [set_solver|].
    destruct (String.eqb_spec t "scraper"); set_solver.
  - intros Ht. set_unfold in Ht. destruct Ht as [->|[->|[->|[]]]]; cbn;
      destruct (String.eqb_spec t' "rss"); try done;
      destruct (String.eqb_spec t' "reddit"); try done;
      destruct (String.eqb_spec t' "scraper"); done.
Qed.

End SourcesMoreFacts.

(** ** Summaries: the summarize request over time *)

Section SummariesMoreFacts.
Import Summaries SummariesMore.

Lemma step_outputFormat ev s :
  outputFormat s ∈ format_items -> outputFormat (step ev s) ∈ format_items.
Proof.
  intros Hs. destruct ev; unfold step; cbn [outputFormat]; try done.
  - unfold select_pick. by destruct (category_items s !! i).
  - unfold select_pick. destruct (format_items !! i) as [val|] eqn:Hi; [|done].
    cbn [outputFormat]. eapply list_elem_of_lookup_2, Hi.
Qed.

Lemma run_outputFormat evs s :
  outputFormat s ∈ format_items -> outputFormat (run evs s) ∈ format_items.
Proof.
  revert s. induction evs as [|ev evs IH]; intros s Hs; simpl; [done|].
  apply IH, step_outputFormat, Hs.
Qed.

(** X9: after every sequence of events the request [generateSummary]
    issues is POST /summarize with exactly output_format, category and
    limit; output_format is markdown or json, limit is 20, and category
    is null or a non-empty string, never the empty string. *)
Theorem generateSummary_request_shape (evs : list event) :
  let s := run evs init in
  let b := generateSummary_body s in
  req_method (generateSummary_request s) = POST ∧
  req_path (generateSummary_request s) = "/summarize" ∧
  req_body (generateSummary_request s) = Some (JObj b) ∧
  dom b = ({["output_format"; "category"; "limit"]} : gset string) ∧
  (∃ f, b !! "output_format" = Some (JStr f) ∧ (f = "markdown" ∨ f = "json")) ∧
  b !! "limit" = Some (JNum 20) ∧
  (b !! "category" = Some JNull ∨
   ∃ c, b !! "category" = Some (JStr c) ∧ c ≠ "").
Proof.
  intros s b. subst b. unfold generateSummary_body.
  split_and!; try reflexivity.
  - exists (outputFormat s). split; [apply lookup_insert_eq|].
    assert (H : outputFormat s ∈ format_items).
    { apply run_outputFormat. simpl. set_solver. }
    unfold format_items in H. set_solver.
  - rewrite lookup_insert_ne by done. rewrite lookup_insert_eq.
    unfold js_or. cbn [truthy].
    destruct (String.eqb_spec (selectedCategory s) ""); cbn [negb]; [by left|].
    right. by exists (selectedCategory s).
Qed.

Lemma step_category_picked ev s :
  lists_named_categories ev ->
  ("" ∉ categories s) ∧ selectedCategory s ≠ "" ->
  ("" ∉ categories (step ev s)) ∧ selectedCategory (step ev s) ≠ "".
Proof.
  intros Hev [Hc Hs]. destruct ev; unfold step; try done.
  - unfold select_pick. destruct (category_items s !! i) as [val|] eqn:Hi; [|done].
    cbn [categories selectedCategory]. split; [done|].
    apply list_elem_of_lookup_2 in Hi. unfold category_items in Hi.
    intros ->. set_solver.
  - unfold select_pick. by destruct (format_items !! i).
Qed.

(** X10: there is no way back to "no category": if no listed category is
    the empty string, then from a state in which a category item has been
    picked every later request carries a category that is not null,
    whatever is picked afterwards. *)
Theorem summary_category_never_back_to_null (s : state) (evs : list event) :
  "" ∉ categories s -> selectedCategory s ≠ "" ->
  Forall lists_named_categories evs ->
  selectedCategory (run evs s) ≠ "" ∧
  generateSummary_body (run evs s) !! "category"
    = Some (JStr (selectedCategory (run evs s))) ∧
  generateSummary_body (run evs s) !! "category" ≠ Some JNull.
Proof.
  intros Hc Hs Hevs.
  assert (H : ("" ∉ categories (run evs s)) ∧ selectedCategory (run evs s) ≠ "").
  { revert s Hc Hs. induction Hevs as [|ev evs Hev _ IH]; intros s Hc Hs; [done|].
    cbn [run fold_left].
    destruct (step_category_picked ev s Hev (conj Hc Hs)) as [Hc' Hs'].
    by apply IH. }
  destruct H as [_ H]. split; [done|].
  unfold generateSummary_body.
  rewrite lookup_insert_ne by done. rewrite lookup_insert_eq.
  unfold js_or. cbn [truthy].
  destruct (String.eqb_spec (selectedCategory (run evs s)) ""); done.
Qed.

Lemma summary_category_never_back_to_null_witness :
  generateSummary_body
    (run [CategoriesOk ["AI"; "Security"]; SelectCategory 0; SelectCategory 2]
         (step (SelectCategory 0) init)) !! "category" ≠ Some JNull.
Proof.
  apply (summary_category_never_back_to_null (step (SelectCategory 0) init)
           [CategoriesOk ["AI"; "Security"]; SelectCategory 0; SelectCategory 2]).
  - cbn. set_solver.
  - cbn. discriminate.
  - repeat constructor. cbn. set_solver.
Defined.

End SummariesMoreFacts.

(** ** Exports: the ends of the KB range, the reply of an export *)

Section ExportsMoreFacts.
Import Exports.

(** X11: in the KB range the value shown runs from 1.0 to 1024.0: it is
    [n/10 . n mod 10] with 10 <= n <= 10240; the sizes up to 1075 bytes
    show "1.0 KB", and the sizes from 1048525 bytes on, still below
    1048576, show "1024.0 KB" (not "1.0 MB"). *)
Theorem formatFileSize_KB_range (bytes : Z) :
  1024 <= bytes < 1048576 ->
  (∃ n, formatFileSize bytes
        = Z_to_string (n / 10) ++ "." ++ Z_to_string (n mod 10) ++ " KB" ∧
        10 <= n <= 10240 ∧
        (n = 10 ↔ bytes <= 1075) ∧ (n = 10240 ↔ 1048525 <= bytes)) ∧
  (bytes <= 1075 -> formatFileSize bytes = "1.0 KB") ∧
  (1048525 <= bytes -> formatFileSize bytes = "1024.0 KB").
Proof.
  intros Hb. unfold formatFileSize. change (1024 * 1024) with 1048576.
  destruct (Z.ltb_spec bytes 1024) as [?|_]; [lia|].
  destruct (Z.ltb_spec bytes 1048576) as [_|?]; [|lia].
  unfold toFixed1. destruct (Z.ltb_spec bytes 0) as [?|_]; [lia|].
  rewrite Z.abs_eq by lia. rewrite string_append_nil.
  set (n := (2 * 10 * bytes + 1024) / (2 * 1024)).
  pose proof (Z.div_mod (2 * 10 * bytes + 1024) (2 * 1024) ltac:(lia)) as Hdm.
  pose proof (Z.mod_pos_bound (2 * 10 * bytes + 1024) (2 * 1024) ltac:(lia)) as Hm.
  fold n in Hdm.
  split_and!.
  - exists n. rewrite !string_append_assoc. split; [done|]. lia.
  - intros Hle. replace n with 10 by lia. reflexivity.
  - intros Hge. replace n with 10240 by lia. reflexivity.
Qed.

Lemma formatFileSize_KB_range_witness :
  formatFileSize 1048570 = "1024.0 KB".
Proof. apply (formatFileSize_KB_range 1048570); lia. Defined.

(** X12: what [createExport] reports once the post has resolved depends
    on the reply alone: it reports "Export failed" exactly when the reply
    is null or undefined (the read of articles_count throws inside the
    [try]); a reply without articles_count is reported as "Exported
    undefined articles". *)
Theorem createExport_resolved_edges (data : jsval) :
  (createExport_resolved data = ToastError "Export failed" ↔
   data = JUndefined ∨ data = JNull) ∧
  (∀ m, data = JObj m -> m !! "articles_count" = None ->
        createExport_resolved data = ToastSuccess "Exported undefined articles") ∧
  (data ≠ JUndefined -> data ≠ JNull -> (∀ m, data ≠ JObj m) ->
   createExport_resolved data = ToastSuccess "Exported undefined articles").
Proof.
  unfold createExport_resolved. split_and!.
  - split.
    + intros H. destruct data; cbn [js_get] in H; try discriminate; auto.
    + intros [-> | ->]; reflexivity.
  - intros m -> Hm. cbn [js_get]. unfold js_prop. by rewrite Hm.
  - intros H1 H2 H3. destruct data; try done. by destruct (H3 m).
Qed.

End ExportsMoreFacts.

(** ** Dashboard: the category card *)

Section DashboardMoreFacts.
Import Dashboard.

Variable toLocaleTimeString : jsval -> string.

(** X13: for every stats object the note "No articles categorized yet" is
    shown exactly when the category card has no row; when by_category is
    an object the rows are its entries, and the note is shown exactly
    when it is empty. *)
Theorem Dashboard_note_iff_no_rows (m : gmap string jsval) (collecting : bool) :
  ∃ v, render toLocaleTimeString (JObj m) collecting = Ok v ∧
       (no_categories_note v = true ↔ category_rows v = []) ∧
       (∀ bc, m !! "by_category" = Some (JObj bc) ->
              category_rows v = map_to_list bc ∧
              (no_categories_note v = true ↔ bc = ∅)).
Proof.
  unfold render. cbn [js_get mbind result_bind js_bind].
  destruct (Object_entries_or (js_prop m "by_category")) as (rows & Hrows & _).
  unfold Object_keys. rewrite Hrows. cbn [mbind result_bind js_bind].
  eexists. split; [reflexivity|]. cbn [no_categories_note category_rows].
  assert (Hlen : Nat.eqb (length (List.map fst rows)) 0 = true ↔ rows = []).
  { destruct rows; cbn; split; done. }
  split; [exact Hlen|].
  intros bc Hbc. unfold js_prop in Hrows. rewrite Hbc in Hrows.
  cbn in Hrows. injection Hrows as <-. split; [done|].
  rewrite Hlen. apply map_to_list_empty_iff.
Qed.

End DashboardMoreFacts.

(** ** SettingsPage: what is saved, what is shown *)

Section SettingsFacts.
Import SettingsPage.

Lemma step_keeps_loaded ev s k :
  keeps_loaded ev = true -> k ∉ form_keys ->
  settings (step ev s) !! k = settings s !! k ∧
  dom (settings s) ⊆ dom (settings (step ev s)) ∧
  dom (settings (step ev s)) ⊆ dom (settings s) ∪ list_to_set form_keys.
Proof.
  intros Hev Hk. unfold form_keys in *.
  destruct ev; try done; cbn [step]; try (split_and!; [done | set_solver..]).
  - cbn [set_setting settings]. rewrite lookup_insert_ne, dom_insert_L; set_solver.
  - cbn [set_setting settings]. rewrite lookup_insert_ne, dom_insert_L; set_solver.
  - unfold select_pick. destruct (model_items !! i);
      [|split_and!; [done | set_solver..]].
    cbn [set_setting settings]. rewrite lookup_insert_ne, dom_insert_L; set_solver.
  - cbn [set_setting settings]. rewrite lookup_insert_ne, dom_insert_L; set_solver.
  - cbn [set_setting settings]. rewrite lookup_insert_ne, dom_insert_L; set_solver.
Qed.

Lemma run_keeps_loaded evs s k :
  forallb keeps_loaded evs = true -> k ∉ form_keys ->
  settings (run evs s) !! k = settings s !! k ∧
  dom (settings s) ⊆ dom (settings (run evs s)) ∧
  dom (settings (run evs s)) ⊆ dom (settings s) ∪ list_to_set form_keys.
Proof.
  intros Hevs Hk. revert s. induction evs as [|ev evs IH]; intros s;
    [cbn [run fold_left]; set_solver|].
  cbn [forallb] in Hevs. apply andb_true_iff in Hevs as [Hev Hevs].
  cbn [run fold_left].
  destruct (step_keeps_loaded ev s k Hev Hk) as (H1 & H2 & H3).
  destruct (IH Hevs (step ev s)) as (I1 & I2 & I3).
  unfold run in *. split_and!; [congruence | set_solver | set_solver].
Qed.

(** X14: saving sends the settings as loaded with only the form's own
    keys changed: after a load and whatever edits follow, the body of
    PUT /settings is [{settings}], every key the form does not write
    holds its loaded value, no loaded key is dropped, and no key is added
    besides the five the form writes. *)
Theorem saveSettings_keeps_loaded (s : state) (loaded : gmap string jsval)
    (running : jsval) (evs : list event) (k : string) :
  forallb keeps_loaded evs = true -> k ∉ form_keys ->
  let s' := run evs (step (SettingsOk loaded running) s) in
  req_method (saveSettings_request s') = PUT ∧
  req_path (saveSettings_request s') = "/settings" ∧
  req_body (saveSettings_request s')
    = Some (JObj {["settings" := JObj (settings s')]}) ∧
  settings s' !! k = loaded !! k ∧
  dom loaded ⊆ dom (settings s') ∧
  dom (settings s') ⊆ dom loaded ∪ list_to_set form_keys.
Proof.
  intros Hevs Hk s'. subst s'.
  split; [done|]. split; [done|]. split; [done|].
  apply (run_keeps_loaded evs (step (SettingsOk loaded running) s) k Hevs Hk).
Qed.

Lemma saveSettings_keeps_loaded_witness :
  settings (run [ChangeInterval "15"; SwitchAuto true]
                (step (SettingsOk {["theme" := JStr "dark"]} (JBool false)) init))
    !! "theme" = Some (JStr "dark").
Proof.
  destruct (saveSettings_keeps_loaded init {["theme" := JStr "dark"]} (JBool false)
              [ChangeInterval "15"; SwitchAuto true] "theme")
    as (_ & _ & _ & H & _); [reflexivity | unfold form_keys; set_solver |].
  exact H.
Defined.

(** X15: the auto-categorize switch reads back what it wrote: after the
    switch is set to [b] it shows [b], the value stored being the string
    "true" or "false"; after a load it is on exactly when the loaded
    auto_summarize is the string "true" (so not for the boolean true). *)
Theorem auto_switch_round_trip (s : state) (b : bool)
    (loaded : gmap string jsval) (running : jsval) :
  loading s = false ->
  auto_checked <$> render (step (SwitchAuto b) s) = Some b ∧
  settings (step (SwitchAuto b) s) !! "auto_summarize"
    = Some (JStr (if b then "true" else "false")) ∧
  (auto_checked <$> render (step (SettingsOk loaded running) s) = Some true ↔
   loaded !! "auto_summarize" = Some (JStr "true")) ∧
  auto_checked <$> render (step (SettingsOk {["auto_summarize" := JBool true]}
                                   running) s) = Some false.
Proof.
  intros Hl. unfold render. cbn [step set_setting loading settings].
  rewrite Hl. cbn [fmap option_fmap option_map auto_checked].
  unfold js_prop. split_and!.
  - rewrite lookup_insert_eq. by destruct b.
  - by rewrite lookup_insert_eq.
  - destruct (loaded !! "auto_summarize") as [[]|]; cbn; split; try done.
    + intros [= H]. by apply String.eqb_eq in H as ->.
    + intros [= ->]. done.
  - done.
Qed.

Lemma auto_switch_round_trip_witness :
  auto_checked <$> render (step (SwitchAuto true)
                             (step (SettingsOk ∅ (JBool false)) init)) = Some true.
Proof.
  destruct (auto_switch_round_trip (step (SettingsOk ∅ (JBool false)) init) true
              ∅ (JBool false)) as (H & _); [reflexivity|].
  exact H.
Defined.

(** X16: the two number inputs store the text typed, as a string, and
    that is what is saved; an input that was emptied is stored as the
    empty string and shows its default again (60 for the interval, 50 for
    the articles per fetch). *)
Theorem number_inputs_store_text (s : state) (v : string) :
  loading s = false ->
  (settings (step (ChangeInterval v) s) !! "schedule_interval" = Some (JStr v) ∧
   interval_value <$> render (step (ChangeInterval v) s)
     = Some (if String.eqb v "" then JNum 60 else JStr v)) ∧
  (settings (step (ChangeMaxArticles v) s) !! "max_articles_per_fetch"
     = Some (JStr v) ∧
   max_articles_value <$> render (step (ChangeMaxArticles v) s)
     = Some (if String.eqb v "" then JNum 50 else JStr v)).
Proof.
  intros Hl. unfold render. cbn [step set_setting loading settings].
  rewrite Hl. cbn [fmap option_fmap option_map interval_value max_articles_value].
  unfold js_prop. rewrite !lookup_insert_eq. cbn [default].
  unfold js_or, id. cbn [truthy].
  destruct (String.eqb v ""); done.
Qed.

Lemma number_inputs_store_text_witness :
  interval_value <$> render (step (ChangeInterval "")
                               (step (SettingsOk ∅ (JBool false)) init))
  = Some (JNum 60).
Proof.
  destruct (number_inputs_store_text (step (SettingsOk ∅ (JBool false)) init) "")
    as ((_ & H) & _); [reflexivity|].
  exact H.
Defined.

End SettingsFacts.

(** ** App: the sidebar and the collect button *)

Section AppFacts.
Import App.

Lemma step_activeTab ev s : activeTab s ∈ navItems -> activeTab (step ev s) ∈ navItems.
Proof.
  intros Hs. destruct ev; cbn [step].
  - destruct (navItems !! i) as [id|] eqn:Hi; [|done].
    cbn [activeTab]. eapply list_elem_of_lookup_2, Hi.
  - destruct (renderContent (activeTab s)), (collecting s); done.
  - destruct (pending s); done.
Qed.

Lemma run_activeTab evs s : activeTab s ∈ navItems -> activeTab (run evs s) ∈ navItems.
Proof.
  revert s. induction evs as [|ev evs IH]; intros s Hs; simpl; [done|].
  apply IH, step_activeTab, Hs.
Qed.

(** X17: after every sequence of events the active tab is one of the six
    nav ids, so the [default] of [renderContent] is never what decides:
    the page shown is the one the id names, exactly one nav button has
    the class "nav-item active", and a click on a nav button makes its id
    the active tab. *)
Theorem nav_shows_clicked_page (evs : list event) :
  let s := run evs init in
  activeTab s ∈ navItems ∧
  page_of_nav (activeTab s) = Some (renderContent (activeTab s)) ∧
  filter (fun id => nav_class (activeTab s) id = "nav-item active") navItems
    = [activeTab s] ∧
  (∀ i id, navItems !! i = Some id -> activeTab (step (ClickNav i) s) = id).
Proof.
  intros s.
  assert (Hs : activeTab s ∈ navItems) by (apply run_activeTab; cbn; set_solver).
  split; [done|]. split_and!.
  - unfold navItems in Hs. set_unfold in Hs.
    destruct Hs as [->|[->|[->|[->|[->|[->|[]]]]]]]; reflexivity.
  - unfold navItems in Hs. set_unfold in Hs.
    destruct Hs as [->|[->|[->|[->|[->|[->|[]]]]]]]; reflexivity.
  - intros i id Hi. cbn [step]. by rewrite Hi.
Qed.



End AppFacts.
